(** * addrandomid: the AddRandomIdCommand of src/addrandomid/addrandomid.py

    A shallow embedding of the command that walks a directory, parses every
    markup file it finds and gives an "id" attribute to the tags lacking one.

    Strings are Rocq strings (sequences of 8-bit characters); [lower] is
    Python's [str.lower] on ASCII text.  The parsed document is a tree of
    page elements, addressed by paths of child positions; the loop of
    [_include_id] runs over these paths and updates the tree in place.  The
    collaborators that the program calls but does not define (the HTML
    reader and writer of BeautifulSoup, the operating system's source of
    random bytes, the directory tree) are parameters of the model. *)

From Stdlib Require Import ZArith Ascii String.
From stdpp Require Import base tactics option list numbers strings gmap.

Local Set Warnings "-register-all,-clear-no-such-hyp".
Local Open Scope Z_scope.
Local Open Scope nat_scope.
Local Open Scope stdpp_scope.

(** ** Python strings *)

Module Py.

(** [c.lower()] for one character: the letters A to Z move to a to z. *)
Definition lower_char (c : ascii) : ascii :=
  let n := nat_of_ascii c in
  if (65 <=? n) && (n <=? 90) then ascii_of_nat (n + 32) else c.

(** [s.lower()] *)
Fixpoint lower (s : string) : string :=
  match s with
  | EmptyString => EmptyString
  | String c s' => String (lower_char c) (lower s')
  end.

(** [s.startswith(p)] *)
Fixpoint startswith (s p : string) {struct p} : bool :=
  match p, s with
  | EmptyString, _ => true
  | String _ _, EmptyString => false
  | String b p', String a s' => bool_decide (a = b) && startswith s' p'
  end.

(** [s[n:]] *)
Fixpoint drop (n : nat) (s : string) : string :=
  match n, s with
  | O, _ => s
  | S n', String _ s' => drop n' s'
  | S _, EmptyString => EmptyString
  end.

(** [s[:n]] *)
Fixpoint take (n : nat) (s : string) : string :=
  match n, s with
  | S n', String a s' => String a (take n' s')
  | _, _ => EmptyString
  end.

(** [s[i:j]] for [0 <= i <= j] *)
Definition slice (i j : nat) (s : string) : string := take (j - i) (drop i s).

(** [s.endswith(p)]: [p] is no longer than [s] and the last [len(p)]
    characters of [s] are [p]. *)
Definition endswith (s p : string) : bool :=
  (String.length p <=? String.length s)
  && bool_decide (drop (String.length s - String.length p) s = p).

(** [p in s] for strings: [p] occurs somewhere in [s]. *)
Fixpoint contains (s p : string) : bool :=
  startswith s p
  || match s with
     | EmptyString => false
     | String _ s' => contains s' p
     end.

(** [sep.join(l)] *)
Fixpoint join (sep : string) (l : list string) : string :=
  match l with
  | [] => ""
  | [x] => x
  | x :: l' => x +:+ sep +:+ join sep l'
  end.

(** [f.readlines()] on the text of a file: its lines, each with the newline
    that ends it. *)
Fixpoint readlines (text : string) : list string :=
  match text with
  | EmptyString => []
  | String c text' =>
      if bool_decide (c = "010"%char) then String c "" :: readlines text'
      else
        match readlines text' with
        | [] => [String c ""]
        | line :: lines => String c line :: lines
        end
  end.

(** What a file opened for reading in text mode gives for the characters
    it holds: a carriage return, with the line feed that follows it if
    any, is read as a line feed. *)
Fixpoint universal_newlines (text : string) : string :=
  match text with
  | EmptyString => EmptyString
  | String c text' =>
      if bool_decide (c = "013"%char) then
        String "010"
          match text' with
          | String c' text'' =>
              if bool_decide (c' = "010"%char) then universal_newlines text''
              else universal_newlines text'
          | EmptyString => EmptyString
          end
      else String c (universal_newlines text')
  end.

(** Truth value of a string: only the empty string is false. *)
Definition truthy (s : string) : bool := negb (bool_decide (s = "")).

(** The collections a caller can pass for a list of tag names.  A default
    is a list; [x in c] works on all three, [c == [..]] only holds for a
    list. *)
Inductive collection :=
| PyList (items : list string)
| PyTuple (items : list string)
| PySet (items : list string).

Definition items (c : collection) : list string :=
  match c with PyList xs | PyTuple xs | PySet xs => xs end.

(** [x in c] *)
Definition mem (x : string) (c : collection) : bool :=
  bool_decide (x ∈ items c).

(** [c == l] where [l] is a list *)
Definition eq_list (c : collection) (l : list string) : bool :=
  match c with
  | PyList xs => bool_decide (xs = l)
  | PyTuple _ | PySet _ => false
  end.

(** A dict with string keys, in insertion order. *)
Definition dict := list (string * string).

(** [d.get(k)] *)
Fixpoint get (d : dict) (k : string) : option string :=
  match d with
  | [] => None
  | (k', v) :: d' => if bool_decide (k' = k) then Some v else get d' k
  end.

(** [d[k] = v]: an existing key keeps its place, a new one goes last. *)
Fixpoint set (d : dict) (k v : string) : dict :=
  match d with
  | [] => [(k, v)]
  | (k', v') :: d' =>
      if bool_decide (k' = k) then (k, v) :: d' else (k', v') :: set d' k v
  end.

(** Truth value of the result of [d.get(k)]: [None] is false. *)
Definition truthy_opt (o : option string) : bool :=
  match o with
  | None => false
  | Some s => truthy s
  end.

End Py.

(** ** The command and its options *)

Record AddRandomIdCommand := {
  path : string;
  recursive : bool;
  exclude_tags : Py.collection;
  include_tags : Py.collection;
  encoding : string;
  extensions : list string;
  prefix : string;
  suffix : string
}.

Definition __EXTENSIONS : list string := ["html"; "hml"; "xhtml"].
Definition __EXCLUDE_TAGS : list string :=
  ["script"; "head"; "title"; "html"; "br"; "style"].
Definition __INCLUDE_TAGS : list string := ["*"].
Definition __RECURSIVE : bool := false.
Definition __ENCODING : string := "utf-8".
Definition __PATH : string := ".".
Definition __PREFIX : string := "".
Definition __SUFFIX : string := "".

(** The named options given to the constructor: an option that is not
    given is [None].  Options of other names are ignored. *)
Record kwargs := {
  kw_path : option string;
  kw_recursive : option bool;
  kw_exclude_tags : option Py.collection;
  kw_include_tags : option Py.collection;
  kw_encoding : option string;
  kw_extensions : option (list string);
  kw_prefix : option string;
  kw_suffix : option string
}.

Definition _get_suffix (kw : kwargs) : string := default __SUFFIX (kw_suffix kw).
Definition _get_prefix (kw : kwargs) : string := default __PREFIX (kw_prefix kw).
Definition _get_encoding (kw : kwargs) : string := default __ENCODING (kw_encoding kw).
Definition _get_extensions (kw : kwargs) : list string :=
  default __EXTENSIONS (kw_extensions kw).
Definition _get_recursive (kw : kwargs) : bool := default __RECURSIVE (kw_recursive kw).
Definition _get_path (kw : kwargs) : string := default __PATH (kw_path kw).
Definition _get_exclude_tags (kw : kwargs) : Py.collection :=
  default (Py.PyList __EXCLUDE_TAGS) (kw_exclude_tags kw).
Definition _get_include_tags (kw : kwargs) : Py.collection :=
  default (Py.PyList __INCLUDE_TAGS) (kw_include_tags kw).

(** [__init__] *)
Definition __init__ (kw : kwargs) : AddRandomIdCommand := {|
  path := _get_path kw;
  recursive := _get_recursive kw;
  exclude_tags := _get_exclude_tags kw;
  include_tags := _get_include_tags kw;
  encoding := _get_encoding kw;
  extensions := _get_extensions kw;
  prefix := _get_prefix kw;
  suffix := _get_suffix kw
|}.

Definition no_kwargs : kwargs := {|
  kw_path := None; kw_recursive := None; kw_exclude_tags := None;
  kw_include_tags := None; kw_encoding := None; kw_extensions := None;
  kw_prefix := None; kw_suffix := None
|}.

(** [AddRandomIdCommand()]: every option at its default. *)
Definition default_command : AddRandomIdCommand := __init__ no_kwargs.

(** ** The parsed document *)

(** A node of the tree BeautifulSoup builds: a tag with its name, its
    attributes and its contents, or a string (text, comment, doctype). *)
Inductive PageElement :=
| Tag (name : string) (attrs : Py.dict) (contents : list PageElement)
| NavigableString (text : string).

(** [tag.get(key)] *)
Definition tag_get (e : PageElement) (key : string) : option string :=
  match e with
  | Tag _ attrs _ => Py.get attrs key
  | NavigableString _ => None
  end.

(** [_is_valid_tag]: [isinstance(tag, Tag)] is the first case. *)
Definition _is_valid_tag (self : AddRandomIdCommand) (tag : PageElement) : bool :=
  match tag with
  | Tag name _ _ =>
      negb (Py.mem (Py.lower name) (exclude_tags self))
      && (Py.eq_list (include_tags self) __INCLUDE_TAGS
          || Py.mem (Py.lower name) (include_tags self))
  | NavigableString _ => false
  end.

(** [_is_valid_extension] *)
Definition _is_valid_extension (self : AddRandomIdCommand) (filename : string) : bool :=
  existsb
    (fun ext =>
       let extension :=
         (if negb (Py.contains ext ".") then "." else "") +:+ Py.lower ext in
       Py.endswith (Py.lower filename) extension)
    (extensions self).

(** *** Nodes by position

    A node of the document is named by the path of child positions that
    leads to it from the soup object; the empty path is the soup itself. *)

Definition position := list nat.

Fixpoint node_at (p : position) (e : PageElement) {struct p} : option PageElement :=
  match p with
  | [] => Some e
  | i :: q =>
      match e with
      | Tag _ _ cs => cs !! i ≫= node_at q
      | NavigableString _ => None
      end
  end.

(** [tag[key] = value] on the node at position [p]; the rest of the tree is
    as it was. *)
Fixpoint set_item (p : position) (key value : string) (e : PageElement)
    {struct p} : PageElement :=
  match e with
  | NavigableString _ => e
  | Tag name attrs cs =>
      match p with
      | [] => Tag name (Py.set attrs key value) cs
      | i :: q => Tag name attrs (alter (set_item q key value) i cs)
      end
  end.

(** [soup.descendants]: every node below [e], in document order (a node
    before its contents, contents from first to last). *)
Fixpoint descendants (e : PageElement) : list position :=
  match e with
  | Tag _ _ cs =>
      (fix below (i : nat) (cs : list PageElement) : list position :=
         match cs with
         | [] => []
         | c :: cs' => ([i] :: ((i ::.) <$> descendants c)) ++ below (S i) cs'
         end) 0 cs
  | NavigableString _ => []
  end.

(** ** Random identifiers: [uuid.uuid4] of the Python standard library *)

Module uuid.

(** The digit of ['%x'] for a value from 0 to 15. *)
Definition hexdigit (n : Z) : ascii :=
  match n with
  | 0 => "0" | 1 => "1" | 2 => "2" | 3 => "3"
  | 4 => "4" | 5 => "5" | 6 => "6" | 7 => "7"
  | 8 => "8" | 9 => "9" | 10 => "a" | 11 => "b"
  | 12 => "c" | 13 => "d" | 14 => "e" | _ => "f"
  end%Z%char.

(** The [i]-th group of four bits of [v], counted from the low end. *)
Definition nibble (v : Z) (i : nat) : Z :=
  Z.land (Z.shiftr v (4 * Z.of_nat i)) 15.

(** ['%032x' % v] for [0 <= v < 2^128], which a UUID is ([uuid4_range]): the
    32 hexadecimal digits of [v], the most significant first. *)
Definition format_032x (v : Z) : string :=
  string_of_list_ascii ((fun i => hexdigit (nibble v i)) <$> rev (seq 0 32)).

(** [UUID(bytes=b, version=version).int], with [b] read as a 128-bit
    integer: the variant bits are set to RFC 4122, then the version. *)
Definition UUID (int : Z) (version : Z) : Z :=
  let int := Z.land int (Z.lnot (Z.shiftl 0xc000 48)) in
  let int := Z.lor int (Z.shiftl 0x8000 48) in
  let int := Z.land int (Z.lnot (Z.shiftl 0xf000 64)) in
  let int := Z.lor int (Z.shiftl version 76) in
  int.

(** [str(u)] for a UUID with integer value [int]. *)
Definition str (int : Z) : string :=
  let hex := format_032x int in
  Py.slice 0 8 hex +:+ "-" +:+ Py.slice 8 12 hex +:+ "-"
    +:+ Py.slice 12 16 hex +:+ "-" +:+ Py.slice 16 20 hex +:+ "-"
    +:+ Py.drop 20 hex.

(** [uuid4()] from the 16 random bytes it draws, given as an integer:
    only the low 128 bits count. *)
Definition uuid4 (random_bytes : Z) : Z :=
  UUID (random_bytes mod 2 ^ 128) 4.

End uuid.

(** ** The collaborators

    What the program uses and does not define: the k-th draw of 16 bytes
    from [os.urandom], the HTML reader [BeautifulSoup(document,
    'html.parser')] and the writer [str(soup)]; whether the reader raises
    on a text instead of giving a tree, and whether the codec of a given
    name can encode a text. *)
Class Collaborators := {
  os_urandom : nat -> Z;
  BeautifulSoup : string -> PageElement;
  soup_str : PageElement -> string;
  parser_rejects : string -> bool;
  encodes : string -> string -> bool
}.

Section Transformer.
Context `{!Collaborators}.

(** [_new_id]: the arguments [document], [soup] and [tag] are not used.
    The state [k] counts the identifiers drawn so far. *)
Definition _new_id (self : AddRandomIdCommand) (k : nat) : string * nat :=
  (prefix self +:+ uuid.str (uuid.uuid4 (os_urandom k)) +:+ suffix self, S k).

(** One round of the loop of [_include_id], at the node [p] of the soup. *)
Definition include_id_step (self : AddRandomIdCommand)
    (st : PageElement * nat) (p : position) : PageElement * nat :=
  let '(soup, k) := st in
  match node_at p soup with
  | None => st
  | Some tag =>
      if negb (_is_valid_tag self tag) || Py.truthy_opt (tag_get tag "id")
      then st
      else
        let '(new_id, k') := _new_id self k in
        (set_item p "id" new_id soup, k')
  end.

(** The loop of [_include_id].  The positions are those of the soup as
    parsed: assigning an attribute leaves the shape of the tree alone
    ([descendants_set_item]). *)
Definition include_id_loop (self : AddRandomIdCommand)
    (soup : PageElement) (k : nat) : PageElement * nat :=
  foldl (include_id_step self) (soup, k) (descendants soup).

(** [_include_id] *)
Definition _include_id (self : AddRandomIdCommand) (document : string)
    (k : nat) : string * nat :=
  let soup := BeautifulSoup document in
  let '(soup, k) := include_id_loop self soup k in
  (soup_str soup, k).

End Transformer.

(** ** The file system *)

(** What [os.scandir] finds in a directory: an entry that is not a directory,
    or a directory (maybe through a symbolic link) with its entries when it
    can be listed. *)
Inductive fs_node :=
| FsFile (name : string)
| FsDir (name : string) (islink : bool) (listing : option (list fs_node)).

(** The file system.  What a path names for [os.scandir]; the file that
    [open] reaches from a path, symbolic links followed, if it reaches one
    (two paths may reach the same file); the characters of each file, for
    the files that the codec of the command can decode; the files that
    cannot be opened for writing. *)
Record FileSystem := {
  resolve : string -> option fs_node;
  opens : string -> option nat;
  texts : gmap nat string;
  read_only : nat -> bool
}.

(** [os.path.join(a, b)] (POSIX) *)
Definition os_path_join (a b : string) : string :=
  if Py.startswith b "/" then b
  else if bool_decide (a = "") || Py.endswith a "/" then a +:+ b
  else a +:+ "/" +:+ b.

Definition dir_names (entries : list fs_node) : list string :=
  omap (fun e => match e with FsDir name _ _ => Some name | FsFile _ => None end)
    entries.

Definition nondir_names (entries : list fs_node) : list string :=
  omap (fun e => match e with FsFile name => Some name | FsDir _ _ _ => None end)
    entries.

(** [for root, dirs, files in os.walk(top): body], top down, where [top]
    names the node [d].  The body runs on each directory and hands back the
    list [dirs] as it left it; the walk then goes down into the directories
    still named there, symbolic links apart.  An error of [os.scandir] (not
    a directory, no permission) is ignored: that node gives nothing. *)
Fixpoint walk_from {A} (body : A -> string -> list string -> list string -> A * list string)
    (top : string) (d : fs_node) (acc : A) {struct d} : A :=
  match d with
  | FsDir _ _ (Some entries) =>
      let '(acc, dirs) := body acc top (dir_names entries) (nondir_names entries) in
      foldl (fun acc e =>
               match e with
               | FsDir name islink _ =>
                   if bool_decide (name ∈ dirs) && negb islink
                   then walk_from body (os_path_join top name) e acc
                   else acc
               | FsFile _ => acc
               end)
        acc entries
  | FsDir _ _ None | FsFile _ => acc
  end.

(** [os.walk(top)] as a loop: a path that names nothing is one more error
    of [os.scandir] that the walk ignores. *)
Definition os_walk {A} (fs : FileSystem)
    (body : A -> string -> list string -> list string -> A * list string)
    (top : string) (acc : A) : A :=
  match resolve fs top with
  | Some d => walk_from body top d acc
  | None => acc
  end.

(** The body of the loop of [_find_file_names]. *)
Definition find_file_names_body (self : AddRandomIdCommand) (result : list string)
    (root : string) (directories files : list string) : list string * list string :=
  let directories := if negb (recursive self) then [] else directories in
  let result :=
    foldl (fun result file =>
             let filename := os_path_join root file in
             if _is_valid_extension self filename
             then result ++ [filename] else result)
      result files in
  (result, directories).

(** [_find_file_names] *)
Definition _find_file_names (self : AddRandomIdCommand) (fs : FileSystem) : list string :=
  os_walk fs (find_file_names_body self) (path self) [].

(** [_read]: the lines of the file put together again, or nothing when
    opening or decoding the file raises.  The file is read in text mode:
    the line ends are translated. *)
Definition _read (fs : FileSystem) (filename : string) : option string :=
  match opens fs filename ≫= (fun file => texts fs !! file) with
  | Some text =>
      let lines := Py.readlines (Py.universal_newlines text) in
      Some (Py.join "" lines)
  | None => None
  end.

(** How [_save] ends: the text is in the file, or an exception went up. *)
Inductive saved :=
| Saved (fs : FileSystem)
| NotSaved (fs : FileSystem).

Definition write_file (fs : FileSystem) (file : nat) (text : string) : FileSystem :=
  {| resolve := resolve fs; opens := opens fs;
     texts := <[file := text]> (texts fs); read_only := read_only fs |}.

(** [_save].  Opening for writing empties the file, when the file may be
    written at all; the write then raises when the codec cannot encode the
    text, and the file stays empty.  A line feed is written as it is.  A
    path that [open] does not reach is taken not to be writable:
    [execute] saves under the names it has just read. *)
Definition _save `{!Collaborators} (self : AddRandomIdCommand) (fs : FileSystem)
    (filename document : string) : saved :=
  match opens fs filename with
  | None => NotSaved fs
  | Some file =>
      if read_only fs file then NotSaved fs
      else if encodes (encoding self) document
      then Saved (write_file fs file document)
      else NotSaved (write_file fs file "")
  end.

(** How a run ends: it returns, or an exception went up; either way with
    the file system as the run left it and the count of identifiers drawn. *)
Inductive outcome :=
| Returned (fs : FileSystem) (k : nat)
| Raised (fs : FileSystem) (k : nat).

Section Execute.
Context `{!Collaborators}.

(** One round of the loop of [execute]. *)
Definition execute_step (self : AddRandomIdCommand) (st : outcome)
    (filename : string) : outcome :=
  match st with
  | Raised _ _ => st
  | Returned fs k =>
      match _read fs filename with
      | None => Raised fs k
      | Some document =>
          if parser_rejects document then Raised fs k
          else
            let '(document_with_id, k') := _include_id self document k in
            match _save self fs filename document_with_id with
            | Saved fs' => Returned fs' k'
            | NotSaved fs' => Raised fs' k'
            end
      end
  end.

(** [execute] *)
Definition execute (self : AddRandomIdCommand) (fs : FileSystem) (k : nat) : outcome :=
  let file_names := _find_file_names self fs in
  foldl (execute_step self) (Returned fs k) file_names.

End Execute.

(** ** Vocabulary of the properties *)

(** What the loop reads of a node: its kind, and for a tag its name and
    attributes. *)
Inductive view :=
| VTag (name : string) (attrs : Py.dict)
| VString (text : string).

Definition view_of (e : PageElement) : view :=
  match e with
  | Tag name attrs _ => VTag name attrs
  | NavigableString text => VString text
  end.

Definition view_at (p : position) (e : PageElement) : option view :=
  view_of <$> node_at p e.

Definition view_set (key value : string) (w : view) : view :=
  match w with
  | VTag name attrs => VTag name (Py.set attrs key value)
  | VString _ => w
  end.

(** The test of the loop of [_include_id], from the side of the node that
    gets an identifier: a valid tag whose "id" is missing or empty. *)
Definition needs_id (self : AddRandomIdCommand) (tag : PageElement) : bool :=
  _is_valid_tag self tag && negb (Py.truthy_opt (tag_get tag "id")).

Definition view_needs_id (self : AddRandomIdCommand) (w : view) : bool :=
  match w with
  | VTag name attrs => needs_id self (Tag name attrs [])
  | VString _ => false
  end.

(** The shape of [str(uuid.uuid4())]: 36 characters, hyphens after the
    groups of 8, 4, 4 and 4 hexadecimal digits, the version digit [4] and a
    variant digit among [8], [9], [a], [b]. *)
Definition is_hexdigit (c : ascii) : bool :=
  bool_decide (c ∈ list_ascii_of_string "0123456789abcdef").

Definition uuid4_char_ok (i : nat) (c : ascii) : bool :=
  match i with
  | 8 | 13 | 18 | 23 => bool_decide (c = "-"%char)
  | 14 => bool_decide (c = "4"%char)
  | 19 => bool_decide (c ∈ list_ascii_of_string "89ab")
  | _ => is_hexdigit c
  end.

Definition is_uuid4_str (s : string) : bool :=
  bool_decide (String.length s = 36)
  && forallb (fun ic => uuid4_char_ok ic.1 ic.2) (imap pair (list_ascii_of_string s)).

(** The files below a directory, each with the path the walk gives it: an
    entry of the directory that is not a directory, or a file below one of
    its directories that is no symbolic link and can be listed. *)
Inductive file_below : string -> list fs_node -> string -> Prop :=
| file_here top entries name :
    FsFile name ∈ entries ->
    file_below top entries (os_path_join top name)
| file_deeper top entries name sub filename :
    FsDir name false (Some sub) ∈ entries ->
    file_below (os_path_join top name) sub filename ->
    file_below top entries filename.

(** The conditions of the specification for a tag to get an identifier: no
    non-empty "id" yet, a name (in lower case) that is not excluded, and
    either every tag is included or the name is. *)
Definition eligible (self : AddRandomIdCommand) (name : string) (attrs : Py.dict) : Prop :=
  Py.truthy_opt (Py.get attrs "id") = false
  /\ (Py.lower name ∉ Py.items (exclude_tags self))
  /\ (include_tags self = Py.PyList ["*"]
      \/ Py.lower name ∈ Py.items (include_tags self)).

(** Tag-name matching as the specification words it, with the configured
    names lower-cased as well as the name of the tag. *)
Definition is_valid_tag_both_lowered (self : AddRandomIdCommand) (tag : PageElement) : bool :=
  match tag with
  | Tag name _ _ =>
      negb (bool_decide (Py.lower name ∈ Py.lower <$> Py.items (exclude_tags self)))
      && (Py.eq_list (include_tags self) __INCLUDE_TAGS
          || bool_decide (Py.lower name ∈ Py.lower <$> Py.items (include_tags self)))
  | NavigableString _ => false
  end.

(** Extension matching as the specification words it, with every configured
    extension given a leading dot when it does not start with one. *)
Definition with_leading_dot (ext : string) : string :=
  if Py.startswith ext "." then ext else "." +:+ ext.

Definition is_valid_extension_leading_dot (self : AddRandomIdCommand)
    (filename : string) : bool :=
  existsb
    (fun ext => Py.endswith (Py.lower filename) (with_leading_dot (Py.lower ext)))
    (extensions self).

(** Whether the node at position [p] of the soup passes the test of the
    loop of [_include_id]: a valid tag whose "id" is missing or empty. *)
Definition needs_id_at (self : AddRandomIdCommand) (soup : PageElement)
    (p : position) : bool :=
  match node_at p soup with
  | Some tag => needs_id self tag
  | None => false
  end.

(** The positions of the nodes that pass that test, in the order in which
    the loop meets them. *)
Definition assigned_positions (self : AddRandomIdCommand) (soup : PageElement)
    : list position :=
  filter (fun p => needs_id_at self soup p = true) (descendants soup).



(** The value of a hexadecimal digit, to read ['%x'] back. *)
Definition hexdigit_value (c : ascii) : Z :=
  match index 0 (String c "") "0123456789abcdef" with
  | Some n => Z.of_nat n
  | None => 0%Z
  end.

(** The number of tags of a file that the loop of [_include_id] gives an
    identifier to; none for a file that cannot be read. *)
Definition tags_to_identify `{!Collaborators} (self : AddRandomIdCommand)
    (fs : FileSystem) (filename : string) : nat :=
  match _read fs filename with
  | Some text => length (assigned_positions self (BeautifulSoup text))
  | None => 0
  end.

(** The characters of the file that a name opens, when it opens a file
    that can be decoded. *)
Definition text_of (fs : FileSystem) (filename : string) : option string :=
  opens fs filename ≫= (fun file => texts fs !! file).

(** The files that the names of a list open. *)
Definition reached (fs : FileSystem) (names : list string) : list nat :=
  omap (opens fs) names.

(** The file system and the count of identifiers a run ends with. *)
Definition outcome_fs (o : outcome) : FileSystem :=
  match o with Returned fs _ | Raised fs _ => fs end.

Definition outcome_draws (o : outcome) : nat :=
  match o with Returned _ k | Raised _ k => k end.

(** What a run from the file system [fs], with [k] identifiers drawn,
    keeps when it ends in [o] and had no other files to write than
    [touched]: the directory tree, the file each name opens, the files that
    may be written, the characters of the other files, and which files
    there are; the count of identifiers does not go down. *)
Definition kept (fs : FileSystem) (k : nat) (touched : list nat) (o : outcome) : Prop :=
  resolve (outcome_fs o) = resolve fs
  /\ opens (outcome_fs o) = opens fs
  /\ read_only (outcome_fs o) = read_only fs
  /\ k <= outcome_draws o
  /\ (forall file, file ∉ touched -> texts (outcome_fs o) !! file = texts fs !! file)
  /\ (forall file, is_Some (texts (outcome_fs o) !! file) <-> is_Some (texts fs !! file)).

(** ** A reader and a writer for plain markup

    A small stand-in for BeautifulSoup's [html.parser] reader and its
    writer, enough for markup made of tags with double-quoted attributes
    and text.  It serves to run the program on concrete documents; the
    properties of the transformer are proved for any reader and writer. *)

Module Html.

Definition dquote : ascii := "034"%char.

Inductive token :=
| TOpen (name : string) (attrs : Py.dict)
| TClose (name : string)
| TText (text : string).

(** The longest prefix whose characters all pass [f], and the rest. *)
Fixpoint span (f : ascii -> bool) (s : string) : string * string :=
  match s with
  | String c s' =>
      if f c then let '(a, b) := span f s' in (String c a, b) else ("", s)
  | EmptyString => ("", "")
  end.

Definition is_char (c : ascii) (x : ascii) : bool := bool_decide (x = c).

Definition name_char (x : ascii) : bool :=
  negb (is_char " " x || is_char ">" x || is_char "=" x || is_char "/" x).

(** The value after an attribute name: [="..."], [=word], or nothing. *)
Definition lex_value (s : string) : string * string :=
  match s with
  | String e s1 =>
      if is_char "=" e then
        match s1 with
        | String q s2 =>
            if is_char dquote q
            then let '(v, s3) := span (fun x => negb (is_char dquote x)) s2 in
                 (v, Py.drop 1 s3)
            else span (fun x => negb (is_char " " x || is_char ">" x)) s1
        | EmptyString => ("", s1)
        end
      else ("", s)
  | EmptyString => ("", s)
  end.

(** The attributes inside a start tag, up to its [>], and the text that
    follows.  Names are lower-cased, as the reader of the library does; a
    name given twice keeps its last value. *)
Fixpoint lex_attrs (fuel : nat) (attrs : Py.dict) (s : string) : Py.dict * string :=
  match fuel with
  | O => (attrs, s)
  | S fuel =>
      let '(_, s) := span (fun x => is_char " " x || is_char "/" x) s in
      match s with
      | EmptyString => (attrs, s)
      | String c s' =>
          if is_char ">" c then (attrs, s')
          else
            let '(key, s1) := span name_char s in
            match key with
            | EmptyString => lex_attrs fuel attrs s'
            | String _ _ =>
                let '(value, s2) := lex_value s1 in
                lex_attrs fuel (Py.set attrs (Py.lower key) value) s2
            end
      end
  end.

(** The text as a list of start tags, end tags and pieces of text. *)
Fixpoint lex (fuel : nat) (s : string) : list token :=
  match fuel with
  | O => []
  | S fuel =>
      match s with
      | EmptyString => []
      | String c s' =>
          if is_char "<" c then
            match s' with
            | String c' s'' =>
                if is_char "/" c' then
                  let '(name, rest) := span (fun x => negb (is_char ">" x)) s'' in
                  TClose (Py.lower name) :: lex fuel (Py.drop 1 rest)
                else
                  let '(name, rest) := span name_char s' in
                  let '(attrs, rest) := lex_attrs (String.length rest + 1) [] rest in
                  TOpen (Py.lower name) attrs :: lex fuel rest
            | EmptyString => [TText "<"]
            end
          else
            let '(text, rest) := span (fun x => negb (is_char "<" x)) s in
            TText text :: lex fuel rest
      end
  end.

(** The tags that have no contents and no end tag. *)
Definition void_elements : list string :=
  ["area"; "base"; "br"; "col"; "embed"; "hr"; "img"; "input"; "link";
   "meta"; "param"; "source"; "track"; "wbr"].

(** An open tag under construction: its name, its attributes and the
    contents read so far, the last one first. *)
Definition frame : Type := string * Py.dict * list PageElement.

(** The element [e] goes into the innermost open tag, or to the top of
    the document when none is open. *)
Definition push_element (e : PageElement) (st : list frame * list PageElement)
    : list frame * list PageElement :=
  match st with
  | ((name, attrs, cs) :: frames, top) => ((name, attrs, e :: cs) :: frames, top)
  | ([], top) => ([], e :: top)
  end.

(** The innermost open tag is closed and put into what encloses it. *)
Definition close_frame (st : list frame * list PageElement)
    : list frame * list PageElement :=
  match st with
  | ((name, attrs, cs) :: frames, top) =>
      push_element (Tag name attrs (rev cs)) (frames, top)
  | ([], _) => st
  end.

(** An end tag closes the open tags up to the nearest one of its name. *)
Fixpoint close_to (fuel : nat) (name : string) (st : list frame * list PageElement)
    : list frame * list PageElement :=
  match fuel, st with
  | S fuel, ((name', _, _) :: _, _) =>
      if bool_decide (name' = name) then close_frame st
      else close_to fuel name (close_frame st)
  | _, _ => st
  end.

Fixpoint close_all (fuel : nat) (st : list frame * list PageElement)
    : list frame * list PageElement :=
  match fuel, st with
  | S fuel, (_ :: _, _) => close_all fuel (close_frame st)
  | _, _ => st
  end.

Definition build_step (st : list frame * list PageElement) (t : token)
    : list frame * list PageElement :=
  match t with
  | TText text => push_element (NavigableString text) st
  | TOpen name attrs =>
      if bool_decide (name ∈ void_elements)
      then push_element (Tag name attrs []) st
      else ((name, attrs, []) :: st.1, st.2)
  | TClose name =>
      if bool_decide (name ∈ (fun f : frame => f.1.1) <$> st.1)
      then close_to (length st.1) name st
      else st
  end.

(** The reader: the soup object is a tag named [[document]]. *)
Definition read (document : string) : PageElement :=
  let st := foldl build_step ([], []) (lex (String.length document + 1) document) in
  let st := close_all (length st.1) st in
  Tag "[document]" [] (rev st.2).

Definition write_attrs (attrs : Py.dict) : string :=
  foldr (fun kv acc =>
           " " +:+ kv.1 +:+ "=" +:+ String dquote (kv.2 +:+ String dquote acc))
    "" attrs.

(** The writer *)
Fixpoint write (e : PageElement) : string :=
  match e with
  | NavigableString text => text
  | Tag name attrs cs =>
      let inner := foldr (fun c acc => write c +:+ acc) "" cs in
      if bool_decide (name = "[document]") then inner
      else if bool_decide (name ∈ void_elements)
      then "<" +:+ name +:+ write_attrs attrs +:+ "/>"
      else "<" +:+ name +:+ write_attrs attrs +:+ ">" +:+ inner
             +:+ "</" +:+ name +:+ ">"
  end.




(** A fixed sequence of draws for the random bytes. *)
Definition draws (k : nat) : Z :=
  (0x6c1f0e5a9b3d4782a1c4e7f0b2d59836 * (2 * Z.of_nat k + 1)
   + 0x0123456789abcdef0123456789abcdef)%Z.

End Html.

(** The collaborators of the concrete runs. *)
Definition plain_markup : Collaborators := {|
  os_urandom := Html.draws;
  BeautifulSoup := Html.read;
  soup_str := Html.write;
  parser_rejects := fun _ => false;
  encodes := fun _ _ => true
|}.


(** The same reader and writer with a codec that encodes no text, and with
    a parser that rejects every text: the ways a round can fail after the
    file was read. *)
Definition no_codec : Collaborators := {|
  os_urandom := Html.draws;
  BeautifulSoup := Html.read;
  soup_str := Html.write;
  parser_rejects := fun _ => false;
  encodes := fun _ _ => false
|}.

Definition no_parser : Collaborators := {|
  os_urandom := Html.draws;
  BeautifulSoup := Html.read;
  soup_str := Html.write;
  parser_rejects := fun _ => true;
  encodes := fun _ _ => true
|}.

(** ** Concrete inputs *)

Module Sample.

(** The document of the scenarios of the specification:
    [<html><body><div>x</div><p id="k">y</p></body></html>]. *)
Definition document : string :=
  "<html><body><div>x</div><p id=" +:+ String Html.dquote "k"
    +:+ String Html.dquote ">y</p></body></html>".

Definition soup : PageElement :=
  Tag "[document]" []
    [Tag "html" []
       [Tag "body" []
          [Tag "div" [] [NavigableString "x"];
           Tag "p" [("id", "k")] [NavigableString "y"]]]].

(** [<head><meta><div>a</div></head>]: tags below an excluded tag. *)
Definition nested : PageElement :=
  Tag "[document]" []
    [Tag "head" [] [Tag "meta" [] []; Tag "div" [] [NavigableString "a"]]].


(** [AddRandomIdCommand(exclude_tags=["DIV"])] *)
Definition exclude_DIV : AddRandomIdCommand :=
  __init__ {| kw_path := None; kw_recursive := None;
              kw_exclude_tags := Some (Py.PyList ["DIV"]);
              kw_include_tags := None; kw_encoding := None;
              kw_extensions := None; kw_prefix := None; kw_suffix := None |}.

(** [AddRandomIdCommand(exclude_tags=["div"])] *)
Definition exclude_div : AddRandomIdCommand :=
  __init__ {| kw_path := None; kw_recursive := None;
              kw_exclude_tags := Some (Py.PyList ["div"]);
              kw_include_tags := None; kw_encoding := None;
              kw_extensions := None; kw_prefix := None; kw_suffix := None |}.

(** [AddRandomIdCommand(include_tags=["p"])] *)
Definition include_p : AddRandomIdCommand :=
  __init__ {| kw_path := None; kw_recursive := None; kw_exclude_tags := None;
              kw_include_tags := Some (Py.PyList ["p"]);
              kw_encoding := None; kw_extensions := None;
              kw_prefix := None; kw_suffix := None |}.

(** [AddRandomIdCommand(include_tags=["*", "div"])] *)
Definition include_star_div : AddRandomIdCommand :=
  __init__ {| kw_path := None; kw_recursive := None; kw_exclude_tags := None;
              kw_include_tags := Some (Py.PyList ["*"; "div"]);
              kw_encoding := None; kw_extensions := None;
              kw_prefix := None; kw_suffix := None |}.

(** [AddRandomIdCommand(include_tags=("*",))] *)
Definition include_star_tuple : AddRandomIdCommand :=
  __init__ {| kw_path := None; kw_recursive := None; kw_exclude_tags := None;
              kw_include_tags := Some (Py.PyTuple ["*"]);
              kw_encoding := None; kw_extensions := None;
              kw_prefix := None; kw_suffix := None |}.

(** [AddRandomIdCommand(extensions=["min.html"])] *)
Definition ext_min_html : AddRandomIdCommand :=
  __init__ {| kw_path := None; kw_recursive := None; kw_exclude_tags := None;
              kw_include_tags := None; kw_encoding := None;
              kw_extensions := Some ["min.html"];
              kw_prefix := None; kw_suffix := None |}.

(** [AddRandomIdCommand(recursive=True)] *)
Definition recursive_command : AddRandomIdCommand :=
  __init__ {| kw_path := None; kw_recursive := Some true; kw_exclude_tags := None;
              kw_include_tags := None; kw_encoding := None;
              kw_extensions := None; kw_prefix := None; kw_suffix := None |}.

(** [AddRandomIdCommand(prefix="x-", suffix="-y")] *)
Definition prefixed : AddRandomIdCommand :=
  __init__ {| kw_path := None; kw_recursive := None; kw_exclude_tags := None;
              kw_include_tags := None; kw_encoding := None;
              kw_extensions := None;
              kw_prefix := Some "x-"; kw_suffix := Some "-y" |}.

(** A directory with two files, a directory below it, one more below
    that, and a symbolic link to a directory. *)
Definition entries : list fs_node :=
  [FsFile "index.html";
   FsFile "notes.txt";
   FsDir "sub" false
     (Some [FsFile "page.XHTML";
            FsDir "deep" false (Some [FsFile "x.hml"])]);
   FsDir "link" true (Some [FsFile "linked.html"])].

Definition fs : FileSystem := {|
  resolve := fun p => if bool_decide (p = ".") then Some (FsDir "." false (Some entries))
                      else None;
  opens := fun p => if bool_decide (p = "./index.html") then Some 0 else None;
  texts := {[ 0 := document ]};
  read_only := fun _ => false
|}.

(** [AddRandomIdCommand(extensions=[])] *)
Definition no_extensions : AddRandomIdCommand :=
  __init__ {| kw_path := None; kw_recursive := None; kw_exclude_tags := None;
              kw_include_tags := None; kw_encoding := None;
              kw_extensions := Some [];
              kw_prefix := None; kw_suffix := None |}.

(** [AddRandomIdCommand(extensions=["HTML", "Hml", "xHTML"])] *)
Definition upper_extensions : AddRandomIdCommand :=
  __init__ {| kw_path := None; kw_recursive := None; kw_exclude_tags := None;
              kw_include_tags := None; kw_encoding := None;
              kw_extensions := Some ["HTML"; "Hml"; "xHTML"];
              kw_prefix := None; kw_suffix := None |}.

(** The options of [AddRandomIdCommand(include_tags=["html", "p"])] *)
Definition only_html_p : kwargs :=
  {| kw_path := None; kw_recursive := None; kw_exclude_tags := None;
     kw_include_tags := Some (Py.PyList ["html"; "p"]);
     kw_encoding := None; kw_extensions := None;
     kw_prefix := None; kw_suffix := None |}.

(** The sample document after a run with the default options: every valid
    tag has its identifier. *)
Definition with_ids : string :=
  "<html><body id=" +:+ String Html.dquote "6d4253c2-24e9-4571-a2e8-2d583c816625"
    +:+ String Html.dquote "><div id="
    +:+ String Html.dquote "45807077-5b63-4476-a671-fd39a22c9691"
    +:+ String Html.dquote ">x</div><p id=" +:+ String Html.dquote "k"
    +:+ String Html.dquote ">y</p></body></html>".

(** The sample directory after a run: its one readable file holds
    [with_ids]. *)
Definition done_fs : FileSystem := {|
  resolve := fun p => if bool_decide (p = ".") then Some (FsDir "." false (Some entries))
                      else None;
  opens := fun p => if bool_decide (p = "./index.html") then Some 0 else None;
  texts := {[ 0 := with_ids ]};
  read_only := fun _ => false
|}.

(** A [p] tag whose "id" is the empty string, before its [class]. *)
Definition empty_id : PageElement :=
  Tag "[document]" []
    [Tag "p" [("id", ""); ("class", "c")] [NavigableString "y"]].

(** A file system in which the path ["."] names nothing. *)
Definition empty_fs : FileSystem := {|
  resolve := fun _ => None;
  opens := fun _ => None;
  texts := ∅;
  read_only := fun _ => false
|}.

(** A directory in which [link.html] is a symbolic link to [notes.txt]:
    both names open the same file. *)
Definition linked_fs : FileSystem := {|
  resolve := fun p =>
    if bool_decide (p = ".")
    then Some (FsDir "." false (Some [FsFile "link.html"; FsFile "notes.txt"]))
    else None;
  opens := fun p =>
    if bool_decide (p = "./link.html") || bool_decide (p = "./notes.txt")
    then Some 1 else None;
  texts := {[ 1 := "<p>n</p>" ]};
  read_only := fun _ => false
|}.

End Sample.

(** * Properties *)

(** ** Python strings and dicts *)

Module PyFacts.
Import Py.

Lemma app_nil_l (t : string) : "" +:+ t = t.
Proof. reflexivity. Qed.

Lemma app_cons (a : ascii) (s t : string) : String a s +:+ t = String a (s +:+ t).
Proof. reflexivity. Qed.

Lemma app_nil_r (s : string) : s +:+ "" = s.
Proof. induction s as [|a s IH]; [done|]. by rewrite app_cons, IH. Qed.

Lemma length_app (s t : string) :
  String.length (s +:+ t) = String.length s + String.length t.
Proof. induction s as [|a s IH]; [done|]. rewrite app_cons. simpl. by rewrite IH. Qed.

Lemma drop_app_length (s t : string) : drop (String.length s) (s +:+ t) = t.
Proof. induction s as [|a s IH]; [done|]. rewrite app_cons. simpl. exact IH. Qed.

Lemma take_drop (n : nat) (s : string) : take n s +:+ drop n s = s.
Proof.
  revert s. induction n as [|n IH]; intros [|a s]; try done.
  simpl. by rewrite app_cons, IH.
Qed.

(** [endswith] is "has this suffix". *)
Lemma endswith_spec (s p : string) :
  endswith s p = true <-> exists s0, s = s0 +:+ p.
Proof.
  unfold endswith. rewrite andb_true_iff, Nat.leb_le, bool_decide_eq_true.
  split.
  - intros [_ Hd]. exists (take (String.length s - String.length p) s).
    rewrite <- (take_drop (String.length s - String.length p) s) at 1.
    by rewrite Hd.
  - intros [s0 ->]. rewrite length_app. split; [lia|].
    replace (String.length s0 + String.length p - String.length p)
      with (String.length s0) by lia.
    apply drop_app_length.
Qed.

Lemma truthy_app (s t u : string) : truthy t = true -> truthy (s +:+ t +:+ u) = true.
Proof.
  unfold truthy. rewrite !negb_true_iff, !bool_decide_eq_false.
  intros Ht Hs. apply Ht.
  apply (f_equal String.length) in Hs. rewrite !length_app in Hs. simpl in Hs.
  destruct t; [done|]. simpl in Hs. lia.
Qed.

Lemma join_cons (x : string) (l : list string) : join "" (x :: l) = x +:+ join "" l.
Proof. destruct l; simpl; [by rewrite app_nil_r|done]. Qed.

(** Reading the lines of a text and putting them together gives the text. *)
Lemma join_readlines (text : string) : join "" (readlines text) = text.
Proof.
  induction text as [|c text IH]; [done|]. cbn [readlines].
  case_bool_decide.
  - by rewrite join_cons, IH.
  - destruct (readlines text) as [|line lines]; [by simplify_eq/=|].
    rewrite join_cons in *. by rewrite app_cons, IH.
Qed.

Lemma mem_spec (x : string) (c : collection) : mem x c = true <-> x ∈ items c.
Proof. unfold mem. apply bool_decide_eq_true. Qed.

Lemma eq_list_spec (c : collection) (l : list string) :
  eq_list c l = true <-> c = PyList l.
Proof.
  destruct c; simpl; rewrite ?bool_decide_eq_true; split; congruence.
Qed.

Lemma get_set_eq (d : dict) (k v : string) : get (set d k v) k = Some v.
Proof.
  induction d as [|[k' v'] d IH]; simpl.
  - by rewrite bool_decide_eq_true_2.
  - case_bool_decide; simpl.
    + by rewrite bool_decide_eq_true_2.
    + by rewrite bool_decide_eq_false_2.
Qed.

Lemma get_set_ne (d : dict) (k k' v : string) :
  k <> k' -> get (set d k v) k' = get d k'.
Proof.
  intros Hne. induction d as [|[k0 v0] d IH]; simpl.
  - by rewrite bool_decide_eq_false_2.
  - case_bool_decide; simpl; subst.
    + by rewrite !bool_decide_eq_false_2.
    + case_bool_decide; [done|exact IH].
Qed.

End PyFacts.

(** ** The document tree *)

Section Tree.

Lemma descendants_Tag (name : string) (attrs : Py.dict) (cs : list PageElement) :
  descendants (Tag name attrs cs)
  = mjoin (imap (fun i c => [i] :: ((i ::.) <$> descendants c)) cs).
Proof.
  simpl.
  change (fun i c => [i] :: ((i ::.) <$> descendants c))
    with (fun i c => [0 + i] :: (((0 + i) ::.) <$> descendants c)).
  generalize 0 as n. induction cs as [|c cs IH]; intros n; [done|].
  rewrite imap_cons. simpl. rewrite Nat.add_0_r. f_equal. f_equal.
  rewrite (IH (S n)). f_equal. apply imap_ext. intros i x _. unfold compose.
  by replace (n + S i) with (S n + i) by lia.
Qed.

Lemma elem_of_descendants_cons (i : nat) (q : position) (e : PageElement) :
  (i :: q) ∈ descendants e <->
  exists name attrs cs c,
    e = Tag name attrs cs /\ cs !! i = Some c /\ (q = [] \/ q ∈ descendants c).
Proof.
  destruct e as [name attrs cs|text].
  - rewrite descendants_Tag, list_elem_of_join. split.
    + intros (l & Hin & Hl). apply elem_of_lookup_imap_1 in Hl as (j & c & -> & Hc).
      apply elem_of_cons in Hin as [Heq|Hin].
      * simplify_eq. eauto 10.
      * apply list_elem_of_fmap in Hin as (q' & Heq & Hq'). simplify_eq. eauto 10.
    + intros (? & ? & ? & c & Heq & Hc & Hq). simplify_eq.
      exists ([i] :: ((i ::.) <$> descendants c)). split.
      * destruct Hq as [->|Hq]; [left|right]. by apply list_elem_of_fmap_2.
      * by apply (elem_of_lookup_imap_2 (fun i c => [i] :: ((i ::.) <$> descendants c))).
  - simpl. split; [by intros ?%elem_of_nil|]. by intros (? & ? & ? & ? & ? & _).
Qed.

Lemma nil_not_in_descendants (e : PageElement) : [] ∉ descendants e.
Proof.
  destruct e as [name attrs cs|text]; [|apply not_elem_of_nil].
  rewrite descendants_Tag, list_elem_of_join.
  intros (l & Hin & Hl). apply elem_of_lookup_imap_1 in Hl as (j & c & -> & Hc).
  apply elem_of_cons in Hin as [Heq|Hin]; [done|].
  by apply list_elem_of_fmap in Hin as (q' & Heq & Hq').
Qed.

(** The loop visits exactly the nodes below the soup. *)
Lemma elem_of_descendants (p : position) (e : PageElement) :
  p ∈ descendants e <-> p <> [] /\ is_Some (node_at p e).
Proof.
  revert e. induction p as [|i q IH]; intros e.
  - split; [by intros ?%nil_not_in_descendants|by intros [? _]].
  - rewrite elem_of_descendants_cons. split.
    + intros (name & attrs & cs & c & -> & Hc & Hq). split; [done|].
      simpl. rewrite Hc. simpl. destruct Hq as [->|Hq]; [by eexists|].
      by apply IH in Hq as [_ ?].
    + intros [_ [n Hn]]. destruct e as [name attrs cs|text]; [|done].
      simpl in Hn. destruct (cs !! i) as [c|] eqn:Hc; [|done]. simpl in Hn.
      exists name, attrs, cs, c. split_and!; [done..|].
      destruct q as [|j q]; [by left|right]. apply IH. split; [done|by eexists].
Qed.

(** Assigning an attribute changes that node's attributes and nothing
    else that the loop reads. *)
Lemma view_at_set_item (p q : position) (key value : string) (e : PageElement) :
  view_at q (set_item p key value e)
  = if decide (q = p) then view_set key value <$> view_at q e else view_at q e.
Proof.
  unfold view_at. revert q e. induction p as [|i p IH]; intros q e.
  - by destruct e as [name attrs cs|text], q as [|j q].
  - destruct e as [name attrs cs|text]; [|by destruct q; simpl; try case_decide].
    destruct q as [|j q]; [done|]. cbn [set_item node_at].
    destruct (decide (j = i)) as [->|Hne].
    + rewrite list_lookup_alter_eq. destruct (cs !! i) as [c|] eqn:Hc; simpl.
      * rewrite IH. by repeat case_decide; simplify_eq.
      * by case_decide.
    + rewrite list_lookup_alter_ne by done. by case_decide; simplify_eq.
Qed.

Lemma descendants_set_item (p : position) (key value : string) (e : PageElement) :
  descendants (set_item p key value e) = descendants e.
Proof.
  revert e. induction p as [|i p IH]; intros [name attrs cs|text]; try done.
  cbn [set_item]. rewrite !descendants_Tag. f_equal.
  apply list_eq. intros j. rewrite !list_lookup_imap.
  destruct (decide (i = j)) as [->|Hne].
  - rewrite list_lookup_alter_eq. destruct (cs !! j); simpl; [|done]. by rewrite IH.
  - by rewrite list_lookup_alter_ne.
Qed.

End Tree.

(** ** Random identifiers *)

Module uuidFacts.
Import uuid.

Lemma nibble_range (v : Z) (i : nat) : (0 <= nibble v i < 16)%Z.
Proof.
  unfold nibble. change 15%Z with (Z.ones 4).
  rewrite Z.land_ones by lia. apply Z.mod_pos_bound. lia.
Qed.

Lemma small_cases (n : Z) (P : Z -> Prop) :
  (0 <= n < 16)%Z -> (forall m : nat, m < 16 -> P (Z.of_nat m)) -> P n.
Proof. intros Hn HP. rewrite <- (Z2Nat.id n) by lia. apply HP. lia. Qed.

Lemma hexdigit_is_hex (v : Z) (i : nat) : is_hexdigit (hexdigit (nibble v i)) = true.
Proof.
  apply (small_cases (nibble v i)); [apply nibble_range|]. intros m Hm.
  do 16 (destruct m as [|m]; [reflexivity|]). lia.
Qed.

(** The version digit: bits 76 to 79 are [0100]. *)
Lemma version_nibble (r : Z) : nibble (uuid4 r) 19 = 4%Z.
Proof.
  unfold nibble, uuid4, UUID. apply Z.bits_inj'. intros n Hn.
  rewrite Z.land_spec, Z.shiftr_spec by lia.
  rewrite Z.lor_spec, Z.land_spec, Z.lor_spec, Z.land_spec.
  rewrite !Z.lnot_spec, !Z.shiftl_spec by lia.
  destruct (decide (n < 4)%Z) as [Hlt|Hge].
  - assert (n = 0 \/ n = 1 \/ n = 2 \/ n = 3)%Z as [-> | [-> | [-> | ->]]] by lia;
      cbn; by rewrite ?andb_false_r, ?orb_true_r, ?orb_false_r.
  - rewrite (Z.bits_above_log2 15 n), (Z.bits_above_log2 4 n), andb_false_r;
      [done|done|simpl; lia|done|simpl; lia].
Qed.

(** The variant digit: bits 62 and 63 are [10]. *)
Lemma variant_nibble (r : Z) : (8 <= nibble (uuid4 r) 15 < 12)%Z.
Proof.
  assert (Z.testbit (nibble (uuid4 r) 15) 3 = true
          /\ Z.testbit (nibble (uuid4 r) 15) 2 = false) as [H3 H2].
  { unfold nibble, uuid4, UUID.
    rewrite !Z.land_spec, !Z.shiftr_spec by lia.
    rewrite !Z.lor_spec, !Z.land_spec, !Z.lor_spec, !Z.land_spec.
    rewrite !Z.lnot_spec, !Z.shiftl_spec by lia.
    cbn. by rewrite ?andb_false_r, ?andb_true_r, ?orb_true_r, ?orb_false_r. }
  revert H3 H2.
  apply (small_cases (nibble (uuid4 r) 15)); [apply nibble_range|]. intros m Hm.
  do 16 (destruct m as [|m]; [cbn; intros; (done || lia)|]). lia.
Qed.

(** A [uuid4()] is a 128-bit value: ['%032x'] prints it on 32 digits. *)
Lemma uuid4_range (r : Z) : (0 <= uuid4 r < 2 ^ 128)%Z.
Proof.
  assert (0 <= uuid4 r)%Z as Hpos.
  { unfold uuid4, UUID. apply Z.lor_nonneg. split; [|done].
    apply Z.land_nonneg. left. apply Z.lor_nonneg. split; [|done].
    apply Z.land_nonneg. left. apply Z.mod_pos_bound. lia. }
  split; [done|].
  assert (uuid4 r mod 2 ^ 128 = uuid4 r)%Z as <-; [|apply Z.mod_pos_bound; lia].
  apply Z.bits_inj'. intros n Hn. destruct (decide (n < 128)%Z) as [Hlt|Hge].
  - by apply Z.mod_pow2_bits_low.
  - rewrite Z.mod_pow2_bits_high by lia. unfold uuid4, UUID.
    rewrite Z.lor_spec, Z.land_spec, Z.lor_spec, Z.land_spec.
    rewrite !Z.shiftl_spec by lia.
    rewrite Z.mod_pow2_bits_high by lia.
    rewrite (Z.bits_above_log2 0x8000), (Z.bits_above_log2 4);
      [done|done|simpl; lia|done|simpl; lia].
Qed.

(** [str(u)] spelled out: the digits of [v] from the high end, with the
    four hyphens. *)
Lemma str_chars (v : Z) :
  let h i := hexdigit (nibble v i) in
  list_ascii_of_string (str v)
  = [h 31; h 30; h 29; h 28; h 27; h 26; h 25; h 24; "-"%char;
     h 23; h 22; h 21; h 20; "-"%char;
     h 19; h 18; h 17; h 16; "-"%char;
     h 15; h 14; h 13; h 12; "-"%char;
     h 11; h 10; h 9; h 8; h 7; h 6; h 5; h 4; h 3; h 2; h 1; h 0].
Proof. reflexivity. Qed.

Lemma length_list_ascii (s : string) :
  length (list_ascii_of_string s) = String.length s.
Proof. induction s; simpl; auto. Qed.

Lemma length_str (v : Z) : String.length (str v) = 36.
Proof. by rewrite <- length_list_ascii, str_chars. Qed.

(** Every [uuid4()] prints as a version-4 identifier of 36 characters. *)
Lemma uuid4_str_shape (r : Z) : is_uuid4_str (str (uuid4 r)) = true.
Proof.
  unfold is_uuid4_str. rewrite length_str, str_chars.
  cbn [imap compose forallb fst snd uuid4_char_ok].
  rewrite !hexdigit_is_hex, version_nibble.
  assert (bool_decide (hexdigit (nibble (uuid4 r) 15) ∈ list_ascii_of_string "89ab")
          = true) as ->; [|done].
  pose proof (variant_nibble r) as Hv.
  assert (nibble (uuid4 r) 15 = 8 \/ nibble (uuid4 r) 15 = 9
          \/ nibble (uuid4 r) 15 = 10 \/ nibble (uuid4 r) 15 = 11)%Z
    as [-> | [-> | [-> | ->]]] by lia; done.
Qed.

Lemma truthy_str (v : Z) : Py.truthy (str v) = true.
Proof.
  unfold Py.truthy. rewrite negb_true_iff, bool_decide_eq_false.
  intros Heq. pose proof (length_str v) as Hl. by rewrite Heq in Hl.
Qed.

End uuidFacts.

(** ** The loop of [_include_id] *)

Arguments _new_id : simpl never.

Section Loop.
Context `{!Collaborators}.
Implicit Types (self : AddRandomIdCommand) (soup : PageElement).
Implicit Types (p q : position) (k : nat).

Lemma bool_decide_cons_ne q p (ps : list position) :
  q <> p -> bool_decide (q ∈ p :: ps) = bool_decide (q ∈ ps).
Proof.
  intros Hne. apply bool_decide_ext. rewrite elem_of_cons.
  split; [by intros [?|?]|by right].
Qed.

Lemma needs_id_view self (e : PageElement) :
  needs_id self e = view_needs_id self (view_of e).
Proof. by destruct e. Qed.

Lemma view_at_Some p soup (e : PageElement) :
  node_at p soup = Some e -> view_at p soup = Some (view_of e).
Proof. unfold view_at. by intros ->. Qed.

Lemma truthy_new_id self k : Py.truthy (_new_id self k).1 = true.
Proof. apply PyFacts.truthy_app, uuidFacts.truthy_str. Qed.

(** A node that just got its identifier does not ask for one again. *)
Lemma view_needs_id_set self (w : view) k :
  view_needs_id self (view_set "id" (_new_id self k).1 w) = false.
Proof.
  destruct w as [name attrs|text]; [|done].
  unfold view_needs_id, needs_id, view_set, tag_get.
  rewrite PyFacts.get_set_eq. unfold Py.truthy_opt.
  by rewrite truthy_new_id, andb_false_r.
Qed.

Lemma include_id_step_skip self soup k p (tag : PageElement) :
  node_at p soup = Some tag -> needs_id self tag = false ->
  include_id_step self (soup, k) p = (soup, k).
Proof.
  unfold include_id_step, needs_id. intros -> Hn.
  by destruct (_is_valid_tag self tag), (Py.truthy_opt (tag_get tag "id")).
Qed.

Lemma include_id_step_assign self soup k p (tag : PageElement) :
  node_at p soup = Some tag -> needs_id self tag = true ->
  include_id_step self (soup, k) p
  = (set_item p "id" (_new_id self k).1 soup, S k).
Proof.
  unfold include_id_step, needs_id. intros -> Hn.
  by destruct (_is_valid_tag self tag), (Py.truthy_opt (tag_get tag "id")).
Qed.

Lemma include_id_step_None self soup k p :
  node_at p soup = None -> include_id_step self (soup, k) p = (soup, k).
Proof. unfold include_id_step. by intros ->. Qed.

(** The invariant of the loop, over any list of positions: the shape of
    the tree stays, and what is read at each position is what was there,
    with a fresh identifier where the node was visited and asked for
    one. *)
Lemma include_id_fold self (ps : list position) soup k soup' k' :
  foldl (include_id_step self) (soup, k) ps = (soup', k') ->
  k <= k'
  /\ descendants soup' = descendants soup
  /\ forall q,
       match view_at q soup with
       | Some w =>
           if view_needs_id self w && bool_decide (q ∈ ps)
           then exists j, k <= j < k'
                  /\ view_at q soup' = Some (view_set "id" (_new_id self j).1 w)
           else view_at q soup' = Some w
       | None => view_at q soup' = None
       end.
Proof.
  revert soup k. induction ps as [|p ps IH]; intros soup k Hfold.
  - simpl in Hfold. simplify_eq. split_and!; [done..|].
    intros q. destruct (view_at q soup') as [w|]; [|done].
    by rewrite andb_false_r.
  - cbn [foldl] in Hfold.
    destruct (node_at p soup) as [tag|] eqn:Hp;
      [destruct (needs_id self tag) eqn:Hn|].
    + (* the node at [p] gets an identifier *)
      rewrite (include_id_step_assign _ _ _ _ tag) in Hfold by done.
      apply IH in Hfold as (Hk & Hd & Hv).
      split_and!; [lia|by rewrite Hd, descendants_set_item|].
      intros q. specialize (Hv q). rewrite view_at_set_item in Hv.
      destruct (decide (q = p)) as [->|Hne].
      * rewrite (view_at_Some _ _ _ Hp) in Hv |- *.
        cbn [fmap option_fmap option_map] in Hv.
        rewrite view_needs_id_set in Hv. cbn [andb] in Hv.
        rewrite <- needs_id_view, Hn, bool_decide_eq_true_2 by left. cbn [andb].
        exists k. split; [lia|done].
      * destruct (view_at q soup) as [w|]; [|done].
        rewrite (bool_decide_cons_ne q p ps) by done.
        destruct (view_needs_id self w && bool_decide (q ∈ ps)); [|done].
        destruct Hv as (j & Hj & Hv). exists j. split; [lia|done].
    + (* the node at [p] is skipped *)
      rewrite (include_id_step_skip _ _ _ _ tag) in Hfold by done.
      apply IH in Hfold as (Hk & Hd & Hv). split_and!; [done..|].
      intros q. specialize (Hv q).
      destruct (decide (q = p)) as [->|Hne].
      * rewrite (view_at_Some _ _ _ Hp) in Hv |- *.
        rewrite <- needs_id_view, Hn in Hv |- *. done.
      * destruct (view_at q soup) as [w|]; [|done].
        by rewrite (bool_decide_cons_ne q p ps) by done.
    + (* no node at [p] *)
      rewrite include_id_step_None in Hfold by done.
      apply IH in Hfold as (Hk & Hd & Hv). split_and!; [done..|].
      intros q. specialize (Hv q).
      destruct (decide (q = p)) as [->|Hne].
      * unfold view_at in Hv |- *. by rewrite Hp in Hv |- *.
      * destruct (view_at q soup) as [w|]; [|done].
        by rewrite (bool_decide_cons_ne q p ps) by done.
Qed.

(** What the loop of [_include_id] does to a document: every node below
    the soup that asks for an identifier gets a fresh one, and nothing
    else that the loop reads changes. *)
Lemma include_id_loop_spec self soup k :
  let '(soup', k') := include_id_loop self soup k in
  k <= k'
  /\ descendants soup' = descendants soup
  /\ forall q,
       match view_at q soup with
       | Some w =>
           if view_needs_id self w && bool_decide (q <> [])
           then exists j, k <= j < k'
                  /\ view_at q soup' = Some (view_set "id" (_new_id self j).1 w)
           else view_at q soup' = Some w
       | None => view_at q soup' = None
       end.
Proof.
  unfold include_id_loop.
  destruct (foldl _ _ _) as [soup' k'] eqn:Hfold.
  apply include_id_fold in Hfold as (Hk & Hd & Hv). split_and!; [done..|].
  intros q. specialize (Hv q). unfold view_at in *.
  destruct (node_at q soup) as [tag|] eqn:Hq; simpl in *; [|done].
  rewrite (bool_decide_ext (q <> []) (q ∈ descendants soup)); [done|].
  rewrite elem_of_descendants, Hq.
  split; [by intros ?; split; [|eexists]|by intros [? _]].
Qed.

(** A document in which no node asks for an identifier goes through the
    loop untouched, and no identifier is drawn. *)
Lemma include_id_fold_skip self (ps : list position) soup k :
  (forall p, p ∈ ps -> forall w, view_at p soup = Some w ->
             view_needs_id self w = false) ->
  foldl (include_id_step self) (soup, k) ps = (soup, k).
Proof.
  induction ps as [|p ps IH]; intros Hps; [done|]. cbn [foldl].
  assert (include_id_step self (soup, k) p = (soup, k)) as ->.
  { destruct (node_at p soup) as [tag|] eqn:Hp.
    - apply (include_id_step_skip _ _ _ _ tag); [done|].
      rewrite needs_id_view. apply (Hps p); [left|by apply view_at_Some].
    - by apply include_id_step_None. }
  apply IH. intros q Hq. apply Hps. by right.
Qed.

End Loop.

(** ** The transformer *)

Section TransformerFacts.
Context `{!Collaborators}.
Implicit Types (self : AddRandomIdCommand) (soup : PageElement).
Implicit Types (p q : position) (k : nat).

Lemma _is_valid_tag_spec self (name : string) (attrs : Py.dict)
    (cs : list PageElement) :
  _is_valid_tag self (Tag name attrs cs) = true <->
  (Py.lower name ∉ Py.items (exclude_tags self))
  /\ (include_tags self = Py.PyList ["*"]
      \/ Py.lower name ∈ Py.items (include_tags self)).
Proof.
  unfold _is_valid_tag.
  rewrite andb_true_iff, negb_true_iff, orb_true_iff.
  rewrite PyFacts.eq_list_spec, PyFacts.mem_spec.
  rewrite <- not_true_iff_false, PyFacts.mem_spec. done.
Qed.

Lemma needs_id_spec self (name : string) (attrs : Py.dict) (cs : list PageElement) :
  needs_id self (Tag name attrs cs) = true <-> eligible self name attrs.
Proof.
  unfold needs_id, eligible.
  rewrite andb_true_iff, negb_true_iff, _is_valid_tag_spec. simpl. tauto.
Qed.

(** The loop at one tag of the document. *)
Lemma include_id_loop_at self soup k p (name : string) (attrs : Py.dict)
    (cs : list PageElement) :
  node_at p soup = Some (Tag name attrs cs) ->
  let '(soup', k') := include_id_loop self soup k in
  exists attrs' cs',
    node_at p soup' = Some (Tag name attrs' cs')
    /\ if needs_id self (Tag name attrs cs) && bool_decide (p <> [])
       then exists j, k <= j < k' /\ attrs' = Py.set attrs "id" (_new_id self j).1
       else attrs' = attrs.
Proof.
  intros Hp. pose proof (include_id_loop_spec self soup k) as Hspec.
  destruct (include_id_loop self soup k) as [soup' k'].
  destruct Hspec as (_ & _ & Hv). specialize (Hv p).
  rewrite (view_at_Some _ _ _ Hp) in Hv. cbn [view_of] in Hv.
  change (view_needs_id self (VTag name attrs))
    with (needs_id self (Tag name attrs [])) in Hv.
  assert (needs_id self (Tag name attrs []) = needs_id self (Tag name attrs cs))
    as Heq by done. rewrite Heq in Hv. clear Heq.
  unfold view_at in Hv.
  destruct (needs_id self (Tag name attrs cs) && bool_decide (p <> [])).
  - destruct Hv as (j & Hj & Hv).
    destruct (node_at p soup') as [[name' attrs' cs'|text]|]; simplify_eq/=.
    exists (Py.set attrs "id" (_new_id self j).1), cs'. eauto.
  - destruct (node_at p soup') as [[name' attrs' cs'|text]|]; simplify_eq/=.
    eauto.
Qed.

End TransformerFacts.

(** ** The claims on the transformer *)

Section TransformerClaims.
Context `{!Collaborators}.
Implicit Types (self : AddRandomIdCommand) (soup : PageElement).
Implicit Types (p q : position) (k : nat).

(** The loop at one tag below the soup object: it gets a generated "id"
    if and only if it is eligible, and nothing else of it changes. *)
Lemma include_id_loop_assigns self soup k p (name : string)
    (attrs : Py.dict) (cs : list PageElement) :
  p <> [] ->
  node_at p soup = Some (Tag name attrs cs) ->
  exists attrs' cs',
    node_at p (include_id_loop self soup k).1 = Some (Tag name attrs' cs')
    /\ (eligible self name attrs ->
        exists j, k <= j < (include_id_loop self soup k).2
                  /\ attrs' = Py.set attrs "id" (_new_id self j).1)
    /\ (~ eligible self name attrs -> attrs' = attrs)
    /\ (Py.get attrs' "id" <> Py.get attrs "id" <-> eligible self name attrs)
    /\ (forall key, key <> "id" -> Py.get attrs' key = Py.get attrs key)
    /\ (Py.lower name ∈ Py.items (exclude_tags self) -> attrs' = attrs).
Proof.
  intros Hne Hp.
  pose proof (include_id_loop_at self soup k p name attrs cs Hp) as Hat.
  destruct (include_id_loop self soup k) as [soup' k']. cbn [fst snd].
  destruct Hat as (attrs' & cs' & Hp' & Hat). exists attrs', cs'.
  rewrite (bool_decide_eq_true_2 _ Hne), andb_true_r in Hat.
  pose proof (needs_id_spec self name attrs cs) as Hspec.
  destruct (needs_id self (Tag name attrs cs)).
  - assert (eligible self name attrs) as Hel by by apply Hspec.
    destruct Hat as (j & Hj & ->). split_and!; [done|eauto|done| | |].
    + split; [done|]. intros _ Heq.
      rewrite PyFacts.get_set_eq in Heq. destruct Hel as (Hid & _).
      rewrite <- Heq in Hid. cbn [Py.truthy_opt] in Hid.
      by rewrite truthy_new_id in Hid.
    + intros key Hkey. by apply PyFacts.get_set_ne.
    + intros Hex. by destruct Hel as (_ & ? & _).
  - assert (~ eligible self name attrs) as Hel.
    { intros Hel. apply Hspec in Hel. done. }
    subst attrs'. split_and!; [done|done|done| |done|done].
    split; [done|]. intros ?. done.
Qed.

(** C5.  A tag that carries a non-empty "id" before the transformation
    has the same "id", and the same attributes, after it, whatever the
    options. *)
Theorem C5_existing_id_kept self soup k p (name : string)
    (attrs : Py.dict) (cs : list PageElement) :
  node_at p soup = Some (Tag name attrs cs) ->
  Py.truthy_opt (Py.get attrs "id") = true ->
  exists tag',
    node_at p (include_id_loop self soup k).1 = Some tag'
    /\ tag_get tag' "id" = Py.get attrs "id"
    /\ view_of tag' = VTag name attrs.
Proof.
  intros Hp Hid.
  pose proof (include_id_loop_at self soup k p name attrs cs Hp) as Hat.
  destruct (include_id_loop self soup k) as [soup' k']. cbn [fst snd].
  destruct Hat as (attrs' & cs' & Hp' & Hat).
  unfold needs_id in Hat. cbn [tag_get] in Hat.
  rewrite Hid, andb_false_r in Hat. cbn [andb] in Hat. subst attrs'.
  by exists (Tag name attrs cs').
Qed.

(** C7.  Every identifier the transformation assigns is the configured
    prefix, then the 36 characters of a version-4 UUID, then the
    configured suffix. *)
Theorem C7_generated_id_shape self soup k p (name : string)
    (attrs : Py.dict) (cs : list PageElement) (tag' : PageElement) :
  node_at p soup = Some (Tag name attrs cs) ->
  node_at p (include_id_loop self soup k).1 = Some tag' ->
  tag_get tag' "id" <> Py.get attrs "id" ->
  exists u,
    tag_get tag' "id" = Some (prefix self +:+ u +:+ suffix self)
    /\ String.length u = 36
    /\ is_uuid4_str u = true.
Proof.
  intros Hp Hp' Hid.
  pose proof (include_id_loop_at self soup k p name attrs cs Hp) as Hat.
  destruct (include_id_loop self soup k) as [soup' k']. cbn [fst snd] in *.
  destruct Hat as (attrs' & cs' & Hp'' & Hat). simplify_eq. cbn [tag_get] in *.
  destruct (needs_id self (Tag name attrs cs) && bool_decide (p <> []));
    [|by subst].
  destruct Hat as (j & _ & ->). rewrite PyFacts.get_set_eq.
  exists (uuid.str (uuid.uuid4 (os_urandom j))). split_and!; [done| |].
  - apply uuidFacts.length_str.
  - apply uuidFacts.uuid4_str_shape.
Qed.

(** The loop at a tag below an excluded tag. *)
Lemma include_id_loop_below_excluded self soup k p q
    (aname : string) (aattrs : Py.dict) (acs : list PageElement)
    (name : string) (attrs : Py.dict) (cs : list PageElement) :
  node_at p soup = Some (Tag aname aattrs acs) ->
  Py.lower aname ∈ Py.items (exclude_tags self) ->
  q <> [] ->
  node_at (p ++ q) soup = Some (Tag name attrs cs) ->
  eligible self name attrs ->
  (exists acs', node_at p (include_id_loop self soup k).1 = Some (Tag aname aattrs acs'))
  /\ exists j cs',
       k <= j < (include_id_loop self soup k).2
       /\ node_at (p ++ q) (include_id_loop self soup k).1
          = Some (Tag name (Py.set attrs "id" (_new_id self j).1) cs').
Proof.
  intros Hp Hex Hq Hpq Hel.
  pose proof (include_id_loop_at self soup k p aname aattrs acs Hp) as Ha.
  pose proof (include_id_loop_at self soup k (p ++ q) name attrs cs Hpq) as Hd.
  destruct (include_id_loop self soup k) as [soup' k']. cbn [fst snd].
  split.
  - destruct Ha as (attrs' & cs' & Hp' & Ha).
    assert (needs_id self (Tag aname aattrs acs) = false) as Hn.
    { apply not_true_iff_false. intros Hn%needs_id_spec.
      by destruct Hn as (_ & ? & _). }
    rewrite Hn in Ha. cbn [andb] in Ha. subst. eauto.
  - destruct Hd as (attrs' & cs' & Hp' & Hd).
    apply (needs_id_spec self name attrs cs) in Hel. rewrite Hel in Hd.
    rewrite bool_decide_eq_true_2 in Hd by (by destruct p, q).
    cbn [andb] in Hd. destruct Hd as (j & Hj & ->). eauto.
Qed.


(** [_include_id] is the reader, the loop, and the writer. *)
Lemma _include_id_eq self (document : string) k :
  _include_id self document k
  = (soup_str (include_id_loop self (BeautifulSoup document) k).1,
     (include_id_loop self (BeautifulSoup document) k).2).
Proof.
  unfold _include_id.
  by destruct (include_id_loop self (BeautifulSoup document) k).
Qed.

(** C1.  For every tag of the document that [_include_id] parses, the
    text that [_include_id] returns is that of a tree in which the tag has
    a generated "id" if and only if it had no non-empty "id", its name in
    lower case is not in [exclude_tags], and [include_tags] is the list
    [["*"]] or holds its name in lower case.  The "id" is then the
    identifier of one of the draws of this run, and the other attributes
    stay as they are.  A name in both lists is excluded: the tag keeps its
    attributes. *)
Theorem C1_assigns_iff_eligible self (document : string) k p (name : string)
    (attrs : Py.dict) (cs : list PageElement) :
  p <> [] ->
  node_at p (BeautifulSoup document) = Some (Tag name attrs cs) ->
  exists soup' k' attrs' cs',
    _include_id self document k = (soup_str soup', k')
    /\ node_at p soup' = Some (Tag name attrs' cs')
    /\ (eligible self name attrs ->
        exists j, k <= j < k'
                  /\ attrs' = Py.set attrs "id" (_new_id self j).1
                  /\ Py.get attrs' "id" = Some (_new_id self j).1
                  /\ Py.truthy_opt (Py.get attrs' "id") = true)
    /\ (~ eligible self name attrs -> attrs' = attrs)
    /\ (Py.get attrs' "id" <> Py.get attrs "id" <-> eligible self name attrs)
    /\ (forall key, key <> "id" -> Py.get attrs' key = Py.get attrs key)
    /\ (Py.lower name ∈ Py.items (exclude_tags self) -> attrs' = attrs).
Proof.
  intros Hne Hp.
  destruct (include_id_loop_assigns self (BeautifulSoup document) k p name attrs cs
              Hne Hp) as (attrs' & cs' & Hnode & Hel & Hnel & Hiff & Hkeys & Hex).
  exists (include_id_loop self (BeautifulSoup document) k).1,
    (include_id_loop self (BeautifulSoup document) k).2, attrs', cs'.
  split_and!; [apply _include_id_eq|done| |done..].
  intros He. destruct (Hel He) as (j & Hj & ->). exists j.
  rewrite PyFacts.get_set_eq. cbn [Py.truthy_opt].
  do 3 (split; [done|]). apply truthy_new_id.
Qed.

(** C10.  Exclusion is not inherited.  When a tag of the parsed document
    is excluded and a tag below it is eligible, the text that
    [_include_id] returns is that of a tree in which the excluded tag has
    the attributes it had and the tag below has a generated "id": the
    prefix, the text of the UUID of one of the draws of this run, and the
    suffix. *)
Theorem C10_exclusion_not_inherited self (document : string) k p q
    (aname : string) (aattrs : Py.dict) (acs : list PageElement)
    (name : string) (attrs : Py.dict) (cs : list PageElement) :
  node_at p (BeautifulSoup document) = Some (Tag aname aattrs acs) ->
  Py.lower aname ∈ Py.items (exclude_tags self) ->
  q <> [] ->
  node_at (p ++ q) (BeautifulSoup document) = Some (Tag name attrs cs) ->
  eligible self name attrs ->
  exists soup' k' j acs' attrs' cs',
    _include_id self document k = (soup_str soup', k')
    /\ node_at p soup' = Some (Tag aname aattrs acs')
    /\ node_at (p ++ q) soup' = Some (Tag name attrs' cs')
    /\ k <= j < k'
    /\ attrs' = Py.set attrs "id" (_new_id self j).1
    /\ Py.get attrs' "id"
       = Some (prefix self +:+ uuid.str (uuid.uuid4 (os_urandom j)) +:+ suffix self)
    /\ Py.truthy_opt (Py.get attrs' "id") = true
    /\ Py.get attrs' "id" <> Py.get attrs "id"
    /\ (forall key, key <> "id" -> Py.get attrs' key = Py.get attrs key).
Proof.
  intros Hp Hex Hq Hpq Hel.
  destruct (include_id_loop_below_excluded self (BeautifulSoup document) k p q
              aname aattrs acs name attrs cs Hp Hex Hq Hpq Hel)
    as [[acs' Ha] (j & cs' & Hj & Hd)].
  exists (include_id_loop self (BeautifulSoup document) k).1,
    (include_id_loop self (BeautifulSoup document) k).2, j, acs',
    (Py.set attrs "id" (_new_id self j).1), cs'.
  rewrite PyFacts.get_set_eq. cbn [Py.truthy_opt].
  do 7 (split; [first [apply _include_id_eq|done|apply truthy_new_id]|]).
  split.
  - intros Heq. destruct Hel as (Hid & _). rewrite <- Heq in Hid.
    cbn [Py.truthy_opt] in Hid. by rewrite truthy_new_id in Hid.
  - intros key Hkey. by apply PyFacts.get_set_ne.
Qed.

Lemma needs_id_at_view self soup p :
  needs_id_at self soup p = from_option (view_needs_id self) false (view_at p soup).
Proof.
  unfold needs_id_at, view_at.
  destruct (node_at p soup); simpl; [apply needs_id_view|done].
Qed.

(** A document in which no node passes the test goes through the loop as
    it is. *)
Lemma include_id_loop_nothing self soup k :
  assigned_positions self soup = [] -> include_id_loop self soup k = (soup, k).
Proof.
  intros Hnone. apply include_id_fold_skip. intros p Hp w Hw.
  destruct (view_needs_id self w) eqn:Hn; [|done].
  assert (p ∈ assigned_positions self soup) as Hin.
  { apply list_elem_of_filter. split; [|done].
    by rewrite needs_id_at_view, Hw. }
  rewrite Hnone in Hin. by apply elem_of_nil in Hin.
Qed.





End TransformerClaims.

(** ** Tag names and extensions *)

Section Names.
Implicit Types (self : AddRandomIdCommand).

Lemma lower_char_idemp (c : ascii) : Py.lower_char (Py.lower_char c) = Py.lower_char c.
Proof. by destruct c as [[] [] [] [] [] [] [] []]. Qed.

Lemma lower_idemp (s : string) : Py.lower (Py.lower s) = Py.lower s.
Proof. induction s as [|c s IH]; [done|]. simpl. by rewrite lower_char_idemp, IH. Qed.

Lemma fmap_lower_id (xs : list string) :
  (forall x, x ∈ xs -> Py.lower x = x) -> Py.lower <$> xs = xs.
Proof.
  induction xs as [|x xs IH]; intros Hxs; [done|]. simpl.
  rewrite (Hxs x) by left. f_equal. apply IH. intros y Hy. apply Hxs. by right.
Qed.

(** C9.  The value that stands for "all tags" is the one-element list
    [["*"]] and nothing else: with any other [include_tags], a tag is
    valid only if its name in lower case is a member of the collection,
    ["*"] being one more name. *)
Theorem C9_sentinel_only_exact_list self (name : string) (attrs : Py.dict)
    (cs : list PageElement) :
  include_tags self <> Py.PyList ["*"] ->
  _is_valid_tag self (Tag name attrs cs) = true <->
  (Py.lower name ∉ Py.items (exclude_tags self))
  /\ Py.lower name ∈ Py.items (include_tags self).
Proof.
  intros Hne. unfold _is_valid_tag.
  rewrite andb_true_iff, negb_true_iff, orb_true_iff.
  rewrite PyFacts.eq_list_spec, PyFacts.mem_spec.
  rewrite <- not_true_iff_false, PyFacts.mem_spec.
  unfold __INCLUDE_TAGS. split; [|tauto]. by intros [? [?|?]].
Qed.

(** C2, as the code has it.  Only the name of the tag is lower-cased: two
    tags whose names differ by case are treated alike, and the configured
    names are compared as they are written, so that a name written with a
    capital letter matches no tag.  When every configured name is in
    lower case, the tests are those of the specification. *)
Theorem C2_only_tag_name_lowered self (name name' : string) (attrs : Py.dict)
    (cs : list PageElement) :
  (Py.lower name = Py.lower name' ->
   _is_valid_tag self (Tag name attrs cs) = _is_valid_tag self (Tag name' attrs cs))
  /\ (_is_valid_tag self (Tag name attrs cs) = true <->
      (Py.lower name ∉ Py.items (exclude_tags self))
      /\ (include_tags self = Py.PyList ["*"]
          \/ Py.lower name ∈ Py.items (include_tags self)))
  /\ (forall x, Py.lower x <> x -> Py.lower name <> x)
  /\ ((forall x, x ∈ Py.items (exclude_tags self) -> Py.lower x = x) ->
      (forall x, x ∈ Py.items (include_tags self) -> Py.lower x = x) ->
      _is_valid_tag self (Tag name attrs cs)
      = is_valid_tag_both_lowered self (Tag name attrs cs)).
Proof.
  split_and!.
  - unfold _is_valid_tag. by intros ->.
  - unfold _is_valid_tag.
    rewrite andb_true_iff, negb_true_iff, orb_true_iff.
    rewrite PyFacts.eq_list_spec, PyFacts.mem_spec.
    by rewrite <- not_true_iff_false, PyFacts.mem_spec.
  - intros x Hx Heq. apply Hx. by rewrite <- Heq, lower_idemp.
  - intros Hex Hin. unfold _is_valid_tag, is_valid_tag_both_lowered, Py.mem.
    by rewrite !fmap_lower_id.
Qed.

Lemma _is_valid_extension_spec self (filename : string) :
  _is_valid_extension self filename = true <->
  exists ext s0,
    ext ∈ extensions self
    /\ Py.lower filename
       = s0 +:+ (if Py.contains ext "." then "" else ".") +:+ Py.lower ext.
Proof.
  unfold _is_valid_extension. rewrite existsb_exists. split.
  - intros (ext & Hin & Hend). apply PyFacts.endswith_spec in Hend as [s0 Hs0].
    exists ext, s0. split; [by apply list_elem_of_In|].
    rewrite Hs0. by destruct (Py.contains ext ".").
  - intros (ext & s0 & Hin & Heq). exists ext. split; [by apply list_elem_of_In|].
    apply PyFacts.endswith_spec. exists s0. rewrite Heq.
    by destruct (Py.contains ext ".").
Qed.

Lemma startswith_contains (s p : string) :
  Py.startswith s p = true -> Py.contains s p = true.
Proof. intros Hs. destruct s; simpl in *; by rewrite Hs. Qed.

(** C3, as the code has it.  A file name is valid if and only if, in
    lower case, it ends with one of the configured extensions in lower
    case, with a dot put in front when the extension holds no dot at
    all; an extension that holds a dot anywhere is taken as it is.  When
    every configured extension that holds a dot starts with it, this is
    the test of the specification. *)
Theorem C3_dot_added_when_absent self (filename : string) :
  (_is_valid_extension self filename = true <->
   exists ext s0,
     ext ∈ extensions self
     /\ Py.lower filename
        = s0 +:+ (if Py.contains ext "." then "" else ".") +:+ Py.lower ext)
  /\ ((forall ext, ext ∈ extensions self -> Py.contains ext "." = true ->
                   Py.startswith ext "." = true) ->
      _is_valid_extension self filename
      = is_valid_extension_leading_dot self filename).
Proof.
  split; [apply _is_valid_extension_spec|].
  intros Hdot. unfold _is_valid_extension, is_valid_extension_leading_dot.
  induction (extensions self) as [|ext exts IH]; [done|].
  cbn [existsb]. rewrite IH by (intros; apply Hdot; [by right|done]).
  f_equal. unfold with_leading_dot.
  assert (Py.startswith (Py.lower ext) "." = Py.startswith ext ".") as ->.
  { destruct ext as [|c ext]; [done|]. simpl.
    assert (bool_decide (Py.lower_char c = "."%char) = bool_decide (c = "."%char))
      as ->; [|done].
    apply bool_decide_ext. split; [|by intros ->].
    by destruct c as [[] [] [] [] [] [] [] []]. }
  destruct (Py.contains ext ".") eqn:Hc.
  - by rewrite (Hdot ext) by (done || left).
  - destruct (Py.startswith ext ".") eqn:Hs; [|done].
    apply startswith_contains in Hs. congruence.
Qed.

End Names.

(** ** File discovery *)

Section Discovery.
Implicit Types (self : AddRandomIdCommand) (fs : FileSystem).
Implicit Types (top f : string) (entries : list fs_node).

Lemma fs_node_ind' (P : fs_node -> Prop) :
  (forall name, P (FsFile name)) ->
  (forall name islink, P (FsDir name islink None)) ->
  (forall name islink entries,
     Forall P entries -> P (FsDir name islink (Some entries))) ->
  forall d, P d.
Proof.
  intros Hfile Hnone Hdir. fix IH 1.
  intros [name|name islink [entries|]]; [apply Hfile| |apply Hnone].
  apply Hdir. revert entries. fix IHes 1.
  intros [|e es]; constructor; [apply IH|apply IHes].
Qed.

Lemma elem_of_nondir_names entries (name : string) :
  name ∈ nondir_names entries <-> FsFile name ∈ entries.
Proof.
  unfold nondir_names. rewrite list_elem_of_omap. split.
  - intros ([n|n l o] & Hin & Heq); by simplify_eq.
  - intros Hin. by exists (FsFile name).
Qed.

Lemma elem_of_dir_names entries (name : string) (islink : bool)
    (listing : option (list fs_node)) :
  FsDir name islink listing ∈ entries -> name ∈ dir_names entries.
Proof.
  intros Hin. unfold dir_names. rewrite list_elem_of_omap.
  by exists (FsDir name islink listing).
Qed.

(** The body of the loop: the valid files of the directory go to the
    end of the result, in their order. *)
Lemma find_file_names_body_spec self (result : list string) top
    (directories files : list string) :
  find_file_names_body self result top directories files
  = (result ++ filter (fun f => _is_valid_extension self f = true)
                 (os_path_join top <$> files),
     if recursive self then directories else []).
Proof.
  unfold find_file_names_body. f_equal; [|by destruct (recursive self)].
  revert result. induction files as [|file files IH]; intros result.
  - by rewrite app_nil_r.
  - cbn [foldl fmap list_fmap]. rewrite IH, filter_cons.
    destruct (_is_valid_extension self (os_path_join top file)) eqn:Hv.
    + rewrite decide_True by done. by rewrite <- app_assoc.
    + by rewrite decide_False by done.
Qed.

(** What the walk from a node adds to the result. *)
Lemma walk_from_spec self (d : fs_node) top (acc : list string) f :
  f ∈ walk_from (find_file_names_body self) top d acc <->
  f ∈ acc
  \/ match d with
     | FsDir _ _ (Some entries) =>
         _is_valid_extension self f = true
         /\ if recursive self then file_below top entries f
            else exists name, FsFile name ∈ entries /\ f = os_path_join top name
     | FsDir _ _ None | FsFile _ => False
     end.
Proof.
  revert top acc f. induction d as [name|name islink|name islink entries IH]
    using fs_node_ind'; intros top acc f; [simpl; tauto..|].
  cbn [walk_from]. rewrite find_file_names_body_spec.
  set (acc0 := acc ++ _).
  assert (f ∈ acc0 <->
          f ∈ acc \/ (_is_valid_extension self f = true
                      /\ exists file, FsFile file ∈ entries
                                      /\ f = os_path_join top file)) as Hacc0.
  { unfold acc0. rewrite elem_of_app, list_elem_of_filter, list_elem_of_fmap.
    setoid_rewrite elem_of_nondir_names. naive_solver. }
  destruct (recursive self) eqn:Hrec.
  - (* the walk goes down *)
    assert (forall es acc1,
              Forall (fun e => e ∈ entries) es ->
              Forall (fun d => forall top acc f,
                f ∈ walk_from (find_file_names_body self) top d acc <->
                f ∈ acc
                \/ match d with
                   | FsDir _ _ (Some entries) =>
                       _is_valid_extension self f = true
                       /\ file_below top entries f
                   | FsDir _ _ None | FsFile _ => False
                   end) es ->
              f ∈ foldl (fun acc e =>
                    match e with
                    | FsDir name islink _ =>
                        if bool_decide (name ∈ dir_names entries) && negb islink
                        then walk_from (find_file_names_body self)
                               (os_path_join top name) e acc
                        else acc
                    | FsFile _ => acc
                    end) acc1 es
              <-> f ∈ acc1
                  \/ (_is_valid_extension self f = true
                      /\ exists name sub,
                           FsDir name false (Some sub) ∈ es
                           /\ file_below (os_path_join top name) sub f)) as Hsub.
    { induction es as [|e es IHes]; intros acc1 Hin Hes.
      - simpl. split; [by left|]. intros [?|(_ & ? & ? & []%elem_of_nil & _)]. done.
      - apply Forall_cons in Hin as [Hine Hin]. apply Forall_cons in Hes as [He Hes].
        cbn [foldl]. rewrite IHes by done.
        destruct e as [n|n l o].
        + setoid_rewrite elem_of_cons. naive_solver.
        + rewrite (bool_decide_eq_true_2 (n ∈ dir_names entries))
            by by eapply elem_of_dir_names.
          cbn [andb]. destruct l; cbn [negb].
          * setoid_rewrite elem_of_cons. naive_solver.
          * rewrite He. setoid_rewrite elem_of_cons. destruct o as [sub|].
            -- split.
               ++ intros [[?|[? ?]]|(? & n' & sub' & ? & ?)]; [by left|right..].
                  ** split; [done|]. exists n, sub. by split; [left|].
                  ** split; [done|]. exists n', sub'. by split; [right|].
               ++ intros [?|(? & n' & sub' & [?|?] & ?)]; simplify_eq.
                  ** by left; left.
                  ** left; right. done.
                  ** right. split; [done|]. by exists n', sub'.
            -- split.
               ++ intros [[?|[]]|(? & n' & sub' & ? & ?)]; [by left|right].
                  split; [done|]. exists n', sub'. by split; [right|].
               ++ intros [?|(? & n' & sub' & [?|?] & ?)]; simplify_eq.
                  ** by left; left.
                  ** right. split; [done|]. by exists n', sub'. }
    rewrite Hsub; [|by apply Forall_forall|].
    + rewrite Hacc0. split.
      * intros [[?|(? & file & ? & ->)]|(? & n & sub & ? & ?)]; [by left|right..].
        -- split; [done|]. by apply file_here.
        -- split; [done|]. by eapply file_deeper.
      * intros [?|[? Hb]]; [by left; left|].
        inversion Hb; simplify_eq; [left; right|right]; eauto 10.
    + eapply Forall_impl; [exact IH|]. simpl. intros d Hd top' acc' f'.
      rewrite Hd. destruct d as [|? ? [?|]]; by rewrite ?Hrec.
  - (* the list of directories was cleared *)
    assert (forall es acc1,
              foldl (fun acc e =>
                    match e with
                    | FsDir name islink _ =>
                        if bool_decide (name ∈ []) && negb islink
                        then walk_from (find_file_names_body self)
                               (os_path_join top name) e acc
                        else acc
                    | FsFile _ => acc
                    end) acc1 es = acc1) as Hsub.
    { induction es as [|[n|n l o] es IHes]; intros acc1; [done|exact (IHes _)|].
      cbn [foldl]. by rewrite bool_decide_eq_false_2 by apply not_elem_of_nil. }
    rewrite Hsub, Hacc0. naive_solver.
Qed.

(** C6.  Without [recursive], discovery returns only files that are
    entries of the base directory itself, never one from a directory below
    it; with [recursive], it returns also the valid files of the
    directories below, at every depth (the walk does not go through
    symbolic links). *)
Theorem C6_recursive_flag self fs (name : string) (islink : bool) entries :
  resolve fs (path self) = Some (FsDir name islink (Some entries)) ->
  (recursive self = false ->
   forall f, f ∈ _find_file_names self fs <->
             _is_valid_extension self f = true
             /\ exists file, FsFile file ∈ entries
                             /\ f = os_path_join (path self) file)
  /\ (recursive self = true ->
      forall f, f ∈ _find_file_names self fs <->
                _is_valid_extension self f = true
                /\ file_below (path self) entries f).
Proof.
  intros Hroot. unfold _find_file_names, os_walk. rewrite Hroot.
  split; intros Hrec f; rewrite walk_from_spec, Hrec.
  - split; [by intros [[]%elem_of_nil|?]|by right].
  - split; [by intros [[]%elem_of_nil|?]|by right].
Qed.

End Discovery.

(** [_read] gives the characters of the file that the name opens, the
    line ends translated. *)
Lemma _read_spec (fs : FileSystem) (filename : string) :
  _read fs filename
  = Py.universal_newlines <$> (opens fs filename ≫= (fun file => texts fs !! file)).
Proof.
  unfold _read.
  destruct (opens fs filename ≫= (fun file => texts fs !! file)); [|done].
  simpl. by rewrite PyFacts.join_readlines.
Qed.

(** C8.  When the configured path names nothing, or something that is not
    a directory, the walk ignores the error of the operating system: no
    file is found, and [execute] returns with every file as it was and no
    identifier drawn. *)
Theorem C8_missing_root_no_op `{!Collaborators} (self : AddRandomIdCommand)
    (fs : FileSystem) (k : nat) :
  resolve fs (path self) = None
  \/ (exists name, resolve fs (path self) = Some (FsFile name)) ->
  _find_file_names self fs = [] /\ execute self fs k = Returned fs k.
Proof.
  intros Hroot.
  assert (_find_file_names self fs = []) as Hnone.
  { unfold _find_file_names, os_walk. by destruct Hroot as [->|[name ->]]. }
  split; [done|]. unfold execute. by rewrite Hnone.
Qed.

(** ** The claims at concrete inputs *)

Section Runs.
Local Existing Instance plain_markup.

Local Ltac not_member :=
  let Hin := fresh in
  intros Hin; apply (bool_decide_pack _) in Hin; vm_compute in Hin; exact Hin.

Lemma C1_witness :
  [0; 0; 0] <> ([] : position)
  /\ exists soup' k' attrs' cs',
       _include_id default_command Sample.document 0 = (soup_str soup', k')
       /\ node_at [0; 0; 0] soup' = Some (Tag "div" attrs' cs')
       /\ Py.truthy_opt (Py.get attrs' "id") = true.
Proof.
  split; [done|].
  destruct (C1_assigns_iff_eligible default_command Sample.document 0 [0; 0; 0]
              "div" [] [NavigableString "x"])
    as (soup' & k' & attrs' & cs' & Hrun & Hnode & Hel & _);
    [done|by vm_compute|].
  exists soup', k', attrs', cs'. split; [exact Hrun|]. split; [exact Hnode|].
  destruct Hel as (j & _ & _ & _ & Htruthy); [|exact Htruthy].
  split_and!; [reflexivity|not_member|by left].
Defined.

Lemma C5_witness :
  exists tag',
    node_at [0; 0; 1] (include_id_loop default_command Sample.soup 0).1 = Some tag'
    /\ tag_get tag' "id" = Some "k".
Proof.
  destruct (C5_existing_id_kept default_command Sample.soup 0 [0; 0; 1]
              "p" [("id", "k")] [NavigableString "y"])
    as (tag' & Hnode & Hid & _); [reflexivity..|].
  by exists tag'.
Defined.

Lemma C7_witness :
  exists u,
    tag_get (Tag "div" [("id", "x-45807077-5b63-4476-a671-fd39a22c9691-y")]
               [NavigableString "x"]) "id"
    = Some ("x-" +:+ u +:+ "-y")
    /\ String.length u = 36
    /\ is_uuid4_str u = true.
Proof.
  apply (C7_generated_id_shape Sample.prefixed Sample.soup 0 [0; 0; 0]
           "div" [] [NavigableString "x"]); [reflexivity|by vm_compute|done].
Defined.

Lemma C10_witness :
  exists soup' k' j acs' attrs' cs',
    _include_id default_command "<head><meta><div>a</div></head>" 0
    = (soup_str soup', k')
    /\ node_at [0] soup' = Some (Tag "head" [] acs')
    /\ node_at [0; 1] soup' = Some (Tag "div" attrs' cs')
    /\ Py.get attrs' "id"
       = Some (prefix default_command
               +:+ uuid.str (uuid.uuid4 (os_urandom j))
               +:+ suffix default_command).
Proof.
  destruct (C10_exclusion_not_inherited default_command
              "<head><meta><div>a</div></head>" 0 [0] [1]
              "head" [] [Tag "meta" [] []; Tag "div" [] [NavigableString "a"]]
              "div" [] [NavigableString "a"])
    as (soup' & k' & j & acs' & attrs' & cs' & Hrun & Hhead & Hdiv & _ & _
        & Hid & _);
    [by vm_compute|by apply (bool_decide_unpack _)|done|by vm_compute| |].
  - split_and!; [reflexivity|not_member|by left].
  - exists soup', k', j, acs', attrs', cs'.
    split; [exact Hrun|]. split; [exact Hhead|]. split; [exact Hdiv|exact Hid].
Defined.


Lemma C8_witness :
  _find_file_names default_command Sample.empty_fs = []
  /\ execute default_command Sample.empty_fs 0 = Returned Sample.empty_fs 0.
Proof. apply C8_missing_root_no_op. by left. Defined.

End Runs.

Lemma C9_witness :
  _is_valid_tag Sample.include_star_div (Tag "p" [] []) = true <->
  (Py.lower "p" ∉ Py.items (exclude_tags Sample.include_star_div))
  /\ Py.lower "p" ∈ Py.items (include_tags Sample.include_star_div).
Proof. by apply C9_sentinel_only_exact_list. Defined.

(** C2 as the specification states it fails: the configured entry ["DIV"]
    does not exclude a [div] tag. *)
Lemma C2_counterexample :
  _is_valid_tag Sample.exclude_DIV (Tag "div" [] []) = true
  /\ is_valid_tag_both_lowered Sample.exclude_DIV (Tag "div" [] []) = false.
Proof. split; reflexivity. Qed.

Lemma C2_witness :
  _is_valid_tag default_command (Tag "DIV" [] [])
  = is_valid_tag_both_lowered default_command (Tag "DIV" [] []).
Proof.
  destruct (C2_only_tag_name_lowered default_command "DIV" "div" [] [])
    as (_ & _ & _ & Hagree).
  apply Hagree; intros x Hx; vm_compute in Hx;
    repeat (apply elem_of_cons in Hx as [->|Hx]; [reflexivity|]);
    by apply elem_of_nil in Hx.
Defined.

(** C3 as the specification states it fails: with the extension
    ["min.html"] the file [./admin.html] is valid, though its name does not
    end with [.min.html]. *)
Lemma C3_counterexample :
  _is_valid_extension Sample.ext_min_html "./admin.html" = true
  /\ is_valid_extension_leading_dot Sample.ext_min_html "./admin.html" = false.
Proof. split; reflexivity. Qed.

Lemma C3_witness :
  _is_valid_extension default_command "./a/Index.HTML"
  = is_valid_extension_leading_dot default_command "./a/Index.HTML".
Proof.
  destruct (C3_dot_added_when_absent default_command "./a/Index.HTML")
    as (_ & Hagree).
  apply Hagree. intros ext Hext Hdot. vm_compute in Hext.
  repeat (apply elem_of_cons in Hext as [->|Hext]; [by vm_compute in Hdot|]).
  by apply elem_of_nil in Hext.
Defined.

Lemma C6_witness :
  ("./sub/deep/x.hml" ∈ _find_file_names Sample.recursive_command Sample.fs)
  /\ ("./sub/deep/x.hml" ∉ _find_file_names default_command Sample.fs).
Proof.
  split.
  - apply (C6_recursive_flag Sample.recursive_command Sample.fs "." false
             Sample.entries); [reflexivity..|].
    split; [reflexivity|].
    apply (file_deeper "." Sample.entries "sub"
             [FsFile "page.XHTML"; FsDir "deep" false (Some [FsFile "x.hml"])]).
    { do 2 right. left. }
    apply (file_deeper "./sub" _ "deep" [FsFile "x.hml"]); [right; left|].
    apply (file_here "./sub/deep" [FsFile "x.hml"] "x.hml"). left.
  - intros Hin.
    apply (C6_recursive_flag default_command Sample.fs "." false Sample.entries)
      in Hin as (_ & file & Hfile & Heq); [|reflexivity..].
    unfold Sample.entries in Hfile.
    repeat (apply elem_of_cons in Hfile as [Hfile|Hfile];
            [first [discriminate Hfile
                   |injection Hfile as ->; vm_compute in Heq; discriminate Heq]|]).
    by apply elem_of_nil in Hfile.
Defined.

(** ** The scenarios of the specification *)

(** Default options: [html] is excluded, [body] and [div] get identifiers,
    [p] keeps its own. *)
Example scenario_default :
  (@_include_id plain_markup default_command Sample.document 0).1
  = "<html><body id=" +:+ String Html.dquote "6d4253c2-24e9-4571-a2e8-2d583c816625"
    +:+ String Html.dquote "><div id="
    +:+ String Html.dquote "45807077-5b63-4476-a671-fd39a22c9691"
    +:+ String Html.dquote ">x</div><p id=" +:+ String Html.dquote "k"
    +:+ String Html.dquote ">y</p></body></html>".
Proof. reflexivity. Qed.

(** [exclude_tags=["div"]]: [div] gets no identifier, [body] does. *)
Example scenario_exclude_div :
  let soup' := (@include_id_loop plain_markup Sample.exclude_div Sample.soup 0).1 in
  ((fun tag => tag_get tag "id") <$> node_at [0; 0; 0] soup' = Some None)
  /\ ((fun tag => tag_get tag "id") <$> node_at [0; 0] soup'
      = Some (Some "45807077-5b63-4476-a671-fd39a22c9691")).
Proof. split; reflexivity. Qed.

(** [include_tags=["p"]] on [<div>a</div><p>b</p>]: only [p] gets an
    identifier. *)
Example scenario_include_p :
  (@_include_id plain_markup Sample.include_p "<div>a</div><p>b</p>" 0).1
  = "<div>a</div><p id=" +:+ String Html.dquote "6d4253c2-24e9-4571-a2e8-2d583c816625"
    +:+ String Html.dquote ">b</p>".
Proof. reflexivity. Qed.

(** [include_tags=("*",)] is a tuple, not the list that stands for all
    tags: no [div] is valid, a tag named [*] would be. *)
Example scenario_star_in_a_tuple :
  _is_valid_tag Sample.include_star_tuple (Tag "div" [] []) = false
  /\ _is_valid_tag Sample.include_star_tuple (Tag "*" [] []) = true
  /\ _is_valid_tag Sample.include_star_div (Tag "div" [] []) = true
  /\ _is_valid_tag Sample.include_star_div (Tag "p" [] []) = false.
Proof. by repeat split. Qed.

(** Discovery on the sample directory, without and with [recursive]. *)
Example scenario_discovery :
  _find_file_names default_command Sample.fs = ["./index.html"]
  /\ _find_file_names Sample.recursive_command Sample.fs
     = ["./index.html"; "./sub/page.XHTML"; "./sub/deep/x.hml"].
Proof. split; reflexivity. Qed.

(** * Further properties of the program *)

(** ** The positions the loop visits *)

Section Positions.
Implicit Types (self : AddRandomIdCommand) (soup e : PageElement).
Implicit Types (p q : position).

Lemma PageElement_ind' (P : PageElement -> Prop) :
  (forall text, P (NavigableString text)) ->
  (forall name attrs cs, Forall P cs -> P (Tag name attrs cs)) ->
  forall e, P e.
Proof.
  intros Hstring Htag. fix IH 1.
  intros [name attrs cs|text]; [|apply Hstring].
  apply Htag. revert cs. fix IHcs 1.
  intros [|c cs]; constructor; [apply IH|apply IHcs].
Qed.

Lemma descendants_snoc (name : string) (attrs : Py.dict) (cs : list PageElement) e :
  descendants (Tag name attrs (cs ++ [e]))
  = descendants (Tag name attrs cs)
    ++ [length cs] :: ((length cs ::.) <$> descendants e).
Proof.
  rewrite !descendants_Tag, imap_app, join_app. simpl.
  by rewrite Nat.add_0_r, app_nil_r.
Qed.

(** No node is visited twice. *)
Lemma NoDup_descendants e : NoDup (descendants e).
Proof.
  induction e as [text|name attrs cs IH] using PageElement_ind'; [constructor|].
  induction cs as [|c cs IHcs] using rev_ind; [constructor|].
  apply Forall_app in IH as [IHl IHc]. apply Forall_cons in IHc as [IHc _].
  rewrite descendants_snoc. apply NoDup_app. split_and!.
  - by apply IHcs.
  - intros p Hp Hp'.
    destruct p as [|i q]; [by apply nil_not_in_descendants in Hp|].
    apply elem_of_descendants_cons in Hp as (? & ? & ? & c0 & Heq & Hc0 & _).
    simplify_eq. apply lookup_lt_Some in Hc0.
    apply elem_of_cons in Hp' as [Hp'|Hp']; [simplify_eq; lia|].
    apply list_elem_of_fmap in Hp' as (? & ? & _). simplify_eq. lia.
  - apply NoDup_cons. split.
    + intros (q & Hq & Hin)%list_elem_of_fmap. simplify_eq.
      by apply nil_not_in_descendants in Hin.
    + apply NoDup_fmap_2; [|done]. intros ???. by simplify_eq.
Qed.

Lemma filter_ext_in {A} (P Q : A -> Prop) `{!forall x, Decision (P x)}
    `{!forall x, Decision (Q x)} (l : list A) :
  (forall x, x ∈ l -> P x <-> Q x) -> filter P l = filter Q l.
Proof.
  induction l as [|x l IH]; intros Hl; [done|].
  rewrite !filter_cons, IH by (intros y Hy; apply Hl; by right).
  destruct (decide (P x)) as [HP|HP], (decide (Q x)) as [HQ|HQ]; try done.
  - by apply Hl in HP; [|left].
  - by apply Hl in HQ; [|left].
Qed.

Lemma needs_id_at_set_item self soup p q (key value : string) :
  q <> p ->
  needs_id_at self (set_item p key value soup) q = needs_id_at self soup q.
Proof. intros Hne. by rewrite !needs_id_at_view, view_at_set_item, decide_False. Qed.

(** The positions that get an identifier are the nodes below the soup
    object that pass the test of the loop. *)
Lemma elem_of_assigned_positions self soup p :
  p ∈ assigned_positions self soup <->
  p <> [] /\ exists tag, node_at p soup = Some tag /\ needs_id self tag = true.
Proof.
  unfold assigned_positions, needs_id_at.
  rewrite list_elem_of_filter, elem_of_descendants. split.
  - intros [Hn [Hne [tag Htag]]]. rewrite Htag in Hn. eauto.
  - intros [Hne (tag & Htag & Hn)]. rewrite Htag. eauto.
Qed.

Lemma node_at_view_tag p e (name : string) (attrs : Py.dict) :
  view_at p e = Some (VTag name attrs) <->
  exists cs, node_at p e = Some (Tag name attrs cs).
Proof.
  unfold view_at. destruct (node_at p e) as [[n a cs|t]|]; simpl; split.
  - intros ?; simplify_eq. eauto.
  - intros [? ?]. by simplify_eq.
  - done.
  - by intros [? ?].
  - done.
  - by intros [? ?].
Qed.

Lemma node_at_view_string p e (text : string) :
  view_at p e = Some (VString text) <-> node_at p e = Some (NavigableString text).
Proof.
  unfold view_at. destruct (node_at p e) as [[n a cs|t]|]; simpl;
    split; intros ?; by simplify_eq.
Qed.

Lemma node_at_view_None p e : view_at p e = None <-> node_at p e = None.
Proof. unfold view_at. by destruct (node_at p e). Qed.

End Positions.

(** ** Python dicts: where an assignment puts the key *)

Section Dicts.

Lemma set_absent (d : Py.dict) (k v : string) :
  Py.get d k = None -> Py.set d k v = d ++ [(k, v)].
Proof.
  induction d as [|[k' v'] d IH]; [done|]. simpl.
  case_bool_decide; [done|]. intros Hd. by rewrite IH.
Qed.

Lemma set_present_keys (d : Py.dict) (k v : string) :
  is_Some (Py.get d k) -> (Py.set d k v).*1 = d.*1.
Proof.
  induction d as [|[k' v'] d IH]; simpl; [by intros [? ?]|].
  case_bool_decide; [by subst|]. intros Hd. simpl. f_equal. by apply IH.
Qed.

End Dicts.

(** ** The order and the number of the identifiers drawn *)

Section Order.
Context `{!Collaborators}.
Implicit Types (self : AddRandomIdCommand) (soup : PageElement).
Implicit Types (p q : position) (k : nat).

(** Over a list of distinct positions, the loop draws one identifier for
    each position that passes its test, in the order of the list. *)
Lemma include_id_fold_order self (ps : list position) soup k :
  NoDup ps ->
  (foldl (include_id_step self) (soup, k) ps).2
  = k + length (filter (fun p => needs_id_at self soup p = true) ps)
  /\ forall i p,
       filter (fun p => needs_id_at self soup p = true) ps !! i = Some p ->
       view_at p (foldl (include_id_step self) (soup, k) ps).1
       = view_set "id" (_new_id self (k + i)).1 <$> view_at p soup.
Proof.
  intros Hnd. revert soup k.
  induction Hnd as [|p ps Hp Hnd IH]; intros soup k.
  - split; [simpl; lia|]. by intros i p.
  - cbn [foldl]. rewrite filter_cons.
    destruct (node_at p soup) as [tag|] eqn:Hnode;
      [destruct (needs_id self tag) eqn:Hn|].
    + rewrite (include_id_step_assign _ _ _ _ tag) by done.
      assert (needs_id_at self soup p = true) as Hat
        by (unfold needs_id_at; by rewrite Hnode).
      rewrite decide_True by done.
      set (soup1 := set_item p "id" (_new_id self k).1 soup).
      assert (filter (fun q => needs_id_at self soup1 q = true) ps
              = filter (fun q => needs_id_at self soup q = true) ps) as Hfilter.
      { apply filter_ext_in. intros q Hq. unfold soup1.
        rewrite needs_id_at_set_item; [done|]. by intros ->. }
      destruct (IH soup1 (S k)) as [Hk Hv]. rewrite Hfilter in Hk, Hv.
      split; [rewrite Hk; simpl; lia|].
      intros [|i] q Hq; simpl in Hq.
      * simplify_eq. rewrite Nat.add_0_r.
        destruct (foldl (include_id_step self) (soup1, S k) ps)
          as [soup' k'] eqn:Hfold.
        apply include_id_fold in Hfold as (_ & _ & Hfold).
        specialize (Hfold q). unfold soup1 in Hfold.
        rewrite view_at_set_item, decide_True in Hfold by done.
        rewrite (view_at_Some _ _ _ Hnode) in Hfold |- *.
        cbn [fmap option_fmap option_map] in Hfold |- *.
        rewrite view_needs_id_set in Hfold. cbn [andb] in Hfold. exact Hfold.
      * rewrite (Hv i q Hq). unfold soup1.
        rewrite view_at_set_item, decide_False.
        -- by replace (S k + i) with (k + S i) by lia.
        -- intros ->. apply Hp. by eapply list_elem_of_filter, list_elem_of_lookup_2.
    + rewrite (include_id_step_skip _ _ _ _ tag) by done.
      rewrite decide_False by (unfold needs_id_at; rewrite Hnode; congruence).
      apply IH.
    + rewrite include_id_step_None by done.
      rewrite decide_False by (unfold needs_id_at; by rewrite Hnode).
      apply IH.
Qed.

(** What the loop leaves alone at every position: the kind of the node,
    the text of a string, the name of a tag. *)
Lemma include_id_loop_kind self soup k q :
  match view_at q soup with
  | Some (VTag name attrs) =>
      exists attrs', view_at q (include_id_loop self soup k).1 = Some (VTag name attrs')
  | Some (VString text) =>
      view_at q (include_id_loop self soup k).1 = Some (VString text)
  | None => view_at q (include_id_loop self soup k).1 = None
  end.
Proof.
  pose proof (include_id_loop_spec self soup k) as Hspec.
  destruct (include_id_loop self soup k) as [soup' k']. cbn [fst].
  destruct Hspec as (_ & _ & Hv). specialize (Hv q).
  destruct (view_at q soup) as [[name attrs|text]|]; [|done..].
  destruct (view_needs_id self (VTag name attrs) && bool_decide (q <> [])).
  - destruct Hv as (j & _ & ->). simpl. eauto.
  - eauto.
Qed.

(** The loop on a document: one draw for each node that passes the test,
    handed out in document order. *)
Lemma include_id_loop_order self soup k :
  (include_id_loop self soup k).2 = k + length (assigned_positions self soup)
  /\ forall i p,
       assigned_positions self soup !! i = Some p ->
       exists (name : string) (attrs : Py.dict) (cs cs' : list PageElement),
         node_at p soup = Some (Tag name attrs cs)
         /\ needs_id self (Tag name attrs cs) = true
         /\ node_at p (include_id_loop self soup k).1
            = Some (Tag name (Py.set attrs "id" (_new_id self (k + i)).1) cs').
Proof.
  unfold include_id_loop, assigned_positions.
  destruct (include_id_fold_order self (descendants soup) soup k
              (NoDup_descendants soup)) as [Hk Hv].
  split; [exact Hk|]. intros i p Hi. specialize (Hv i p Hi).
  apply list_elem_of_lookup_2, list_elem_of_filter in Hi as [Hn _].
  unfold needs_id_at in Hn.
  destruct (node_at p soup) as [[name attrs cs|text]|] eqn:Hnode; [|done..].
  rewrite (view_at_Some _ _ _ Hnode) in Hv. simpl in Hv.
  apply node_at_view_tag in Hv as [cs' Hcs']. by exists name, attrs, cs, cs'.
Qed.

(** X1.  The loop of [_include_id] draws exactly one identifier for each
    node below the soup object that passes its test, and hands them out in
    document order: the tag met in place [i] among those nodes gets the
    identifier of draw [k + i], where [k] identifiers were drawn before. *)
Theorem X1_one_draw_per_tag_in_document_order self soup k :
  (include_id_loop self soup k).2 = k + length (assigned_positions self soup)
  /\ forall i p,
       assigned_positions self soup !! i = Some p ->
       exists (name : string) (attrs : Py.dict) (cs cs' : list PageElement),
         node_at p soup = Some (Tag name attrs cs)
         /\ needs_id self (Tag name attrs cs) = true
         /\ node_at p (include_id_loop self soup k).1
            = Some (Tag name (Py.set attrs "id" (_new_id self (k + i)).1) cs').
Proof. apply include_id_loop_order. Qed.

(** After the loop no node asks for an identifier: the loop run again is
    the identity and draws nothing. *)
Lemma include_id_loop_done self soup k k2 :
  include_id_loop self (include_id_loop self soup k).1 k2
  = ((include_id_loop self soup k).1, k2).
Proof.
  pose proof (include_id_loop_spec self soup k) as Hspec.
  destruct (include_id_loop self soup k) as [soup1 k1]. cbn [fst].
  destruct Hspec as (_ & Hd & Hv).
  apply include_id_fold_skip. intros p Hp w Hw. specialize (Hv p).
  rewrite Hd in Hp. apply elem_of_descendants in Hp as [Hne [e He]].
  rewrite (view_at_Some _ _ _ He) in Hv.
  destruct (view_needs_id self (view_of e)) eqn:Hn; cbn [andb] in Hv.
  - rewrite bool_decide_eq_true_2 in Hv by done.
    destruct Hv as (j & _ & Hv). rewrite Hv in Hw. simplify_eq.
    apply view_needs_id_set.
  - rewrite Hv in Hw. by simplify_eq.
Qed.

(** X15.  [_include_id] draws no identifier exactly when no tag of the
    parsed document passes the test of the loop; the text it returns is
    then what the writer makes of the document as the reader parsed it:
    the text is written anew even when nothing is added to it. *)
Theorem X15_nothing_to_identify self (document : string) k :
  ((_include_id self document k).2 = k
   <-> assigned_positions self (BeautifulSoup document) = [])
  /\ (assigned_positions self (BeautifulSoup document) = [] ->
      _include_id self document k = (soup_str (BeautifulSoup document), k)).
Proof.
  split.
  - unfold _include_id.
    destruct (include_id_loop_order self (BeautifulSoup document) k) as [Hk _].
    destruct (include_id_loop self (BeautifulSoup document) k) as [soup' k'].
    cbn [snd] in *. rewrite Hk, <- length_zero_iff_nil. lia.
  - intros Hnone. unfold _include_id.
    by rewrite include_id_loop_nothing.
Qed.

(** X2.  The loop keeps the tree as it is but for attributes: the same
    positions hold nodes, a string is the same string, a tag has the same
    name, and the soup object itself, which is not one of its own
    descendants, keeps its attributes whatever the options. *)
Theorem X2_only_attributes_change self soup k :
  descendants (include_id_loop self soup k).1 = descendants soup
  /\ view_of (include_id_loop self soup k).1 = view_of soup
  /\ (forall q (text : string),
        node_at q (include_id_loop self soup k).1 = Some (NavigableString text)
        <-> node_at q soup = Some (NavigableString text))
  /\ (forall q (name : string),
        (exists attrs cs,
           node_at q (include_id_loop self soup k).1 = Some (Tag name attrs cs))
        <-> (exists attrs cs, node_at q soup = Some (Tag name attrs cs)))
  /\ (forall q, node_at q (include_id_loop self soup k).1 = None
                <-> node_at q soup = None).
Proof.
  pose proof (include_id_loop_spec self soup k) as Hspec.
  pose proof (include_id_loop_kind self soup k) as Hkind.
  destruct (include_id_loop self soup k) as [soup' k']. cbn [fst] in *.
  destruct Hspec as (_ & Hd & Hv). split_and!.
  - exact Hd.
  - specialize (Hv []). unfold view_at in Hv.
    cbn [node_at fmap option_fmap option_map] in Hv.
    case_bool_decide; [done|]. rewrite andb_false_r in Hv. by simplify_eq.
  - intros q text. rewrite <- !node_at_view_string. specialize (Hkind q).
    destruct (view_at q soup) as [[name attrs|text0]|].
    + destruct Hkind as [attrs' ->]. split; intros ?; by simplify_eq.
    + by rewrite Hkind.
    + by rewrite Hkind.
  - intros q name. specialize (Hkind q). split.
    + intros (attrs' & cs' & Hq).
      assert (view_at q soup' = Some (VTag name attrs')) as Hq'
        by (apply node_at_view_tag; eauto).
      clear Hq. rename Hq' into Hq.
      destruct (view_at q soup) as [[name0 attrs|text0]|] eqn:Hview.
      * destruct Hkind as [attrs0 Hkind]. rewrite Hkind in Hq. simplify_eq.
        apply node_at_view_tag in Hview as [cs Hcs]. eauto.
      * rewrite Hkind in Hq. by simplify_eq.
      * rewrite Hkind in Hq. by simplify_eq.
    + intros (attrs & cs & Hq).
      rewrite (view_at_Some _ _ _ Hq) in Hkind. simpl in Hkind.
      destruct Hkind as [attrs' Hkind].
      apply node_at_view_tag in Hkind as [cs' Hcs']. eauto.
  - intros q. rewrite <- !node_at_view_None. specialize (Hkind q).
    destruct (view_at q soup) as [[name attrs|text0]|].
    + destruct Hkind as [attrs' ->]. split; intros ?; by simplify_eq.
    + rewrite Hkind. split; intros ?; by simplify_eq.
    + by rewrite Hkind.
Qed.

(** X3.  Where the identifier goes among the attributes of a tag that gets
    one: a tag with no "id" attribute gets it after its other attributes;
    a tag whose "id" is the empty string counts as having none, and the
    generated identifier takes the place of the empty one, the attributes
    keeping their order. *)
Theorem X3_id_goes_last_or_in_place self soup k p (name : string)
    (attrs : Py.dict) (cs : list PageElement) :
  p <> [] ->
  node_at p soup = Some (Tag name attrs cs) ->
  _is_valid_tag self (Tag name attrs cs) = true ->
  (Py.get attrs "id" = None ->
   exists j cs',
     k <= j < (include_id_loop self soup k).2
     /\ node_at p (include_id_loop self soup k).1
        = Some (Tag name (attrs ++ [("id", (_new_id self j).1)]) cs'))
  /\ (Py.get attrs "id" = Some "" ->
      exists attrs' cs',
        node_at p (include_id_loop self soup k).1 = Some (Tag name attrs' cs')
        /\ attrs'.*1 = attrs.*1
        /\ Py.truthy_opt (Py.get attrs' "id") = true
        /\ forall key, key <> "id" -> Py.get attrs' key = Py.get attrs key).
Proof.
  intros Hne Hp Hvalid.
  pose proof (include_id_loop_at self soup k p name attrs cs Hp) as Hat.
  destruct (include_id_loop self soup k) as [soup' k']. cbn [fst snd].
  destruct Hat as (attrs' & cs' & Hp' & Hat).
  rewrite (bool_decide_eq_true_2 _ Hne), andb_true_r in Hat.
  unfold needs_id in Hat. rewrite Hvalid in Hat. cbn [andb tag_get] in Hat.
  split; intros Hid; rewrite Hid in Hat; cbn in Hat;
    destruct Hat as (j & Hj & ->).
  - exists j, cs'. split; [done|]. by rewrite set_absent in Hp'.
  - exists (Py.set attrs "id" (_new_id self j).1), cs'. split_and!; [done| | |].
    + apply set_present_keys. by rewrite Hid.
    + rewrite PyFacts.get_set_eq. cbn [Py.truthy_opt]. apply truthy_new_id.
    + intros key Hkey. by apply PyFacts.get_set_ne.
Qed.

End Order.

(** ** Identifiers are as distinct as the random values *)

Section Distinct.
Context `{!Collaborators}.
Implicit Types (self : AddRandomIdCommand) (soup : PageElement).
Implicit Types (p q : position) (k : nat).

Lemma hexdigit_value_hexdigit (n : Z) :
  (0 <= n < 16)%Z -> hexdigit_value (uuid.hexdigit n) = n.
Proof.
  intros Hn.
  apply (uuidFacts.small_cases n (fun n => hexdigit_value (uuid.hexdigit n) = n));
    [done|].
  intros m Hm. do 16 (destruct m as [|m]; [reflexivity|]). lia.
Qed.

Lemma nibble_testbit (v : Z) (i : nat) (m : Z) :
  (0 <= m < 4)%Z ->
  Z.testbit (uuid.nibble v i) m = Z.testbit v (m + 4 * Z.of_nat i).
Proof.
  intros Hm. unfold uuid.nibble. rewrite Z.land_spec, Z.shiftr_spec by lia.
  change 15%Z with (Z.ones 4). by rewrite Z.ones_spec_low, andb_true_r by lia.
Qed.

(** The 32 digits of ['%032x'] tell the 128-bit value. *)
Lemma str_inj (v w : Z) :
  (0 <= v < 2 ^ 128)%Z -> (0 <= w < 2 ^ 128)%Z -> uuid.str v = uuid.str w -> v = w.
Proof.
  intros Hv Hw Heq. apply (f_equal list_ascii_of_string) in Heq.
  rewrite !uuidFacts.str_chars in Heq. cbv zeta in Heq.
  assert (forall i, i < 32 -> uuid.nibble v i = uuid.nibble w i) as Hnib.
  { intros i Hi.
    rewrite <- (hexdigit_value_hexdigit (uuid.nibble v i)),
      <- (hexdigit_value_hexdigit (uuid.nibble w i)) by apply uuidFacts.nibble_range.
    apply (f_equal hexdigit_value).
    (* the place of digit [i] in the text, the hyphens counted *)
    pose (place := fun i : nat =>
            let d := 31 - i in
            d + (if d <? 8 then 0 else if d <? 12 then 1
                 else if d <? 16 then 2 else if d <? 20 then 3 else 4)).
    pose proof (f_equal (fun l => nth (place i) l "-"%char) Heq) as Hi'.
    do 32 (destruct i as [|i]; [exact Hi'|]). lia. }
  clear Heq. apply Z.bits_inj'. intros n Hn.
  destruct (decide (n < 128)%Z) as [Hlt|Hge].
  - assert (n = n mod 4 + 4 * Z.of_nat (Z.to_nat (n / 4)))%Z as Hsplit.
    { rewrite Z2Nat.id by (apply Z.div_pos; lia).
      pose proof (Z.div_mod n 4). lia. }
    rewrite Hsplit, <- !nibble_testbit by (apply Z.mod_pos_bound; lia).
    rewrite Hnib; [done|].
    assert (n / 4 < 32)%Z by (apply Z.div_lt_upper_bound; lia).
    assert (0 <= n / 4)%Z by (apply Z.div_pos; lia). lia.
  - rewrite <- (Z.mod_small v (2 ^ 128)), <- (Z.mod_small w (2 ^ 128)) by done.
    by rewrite !Z.mod_pow2_bits_high by lia.
Qed.

Lemma string_app_inj (a b s t : string) :
  String.length a = String.length b -> a +:+ s = b +:+ t -> a = b /\ s = t.
Proof.
  revert b. induction a as [|x a IH]; intros [|y b] Hlen Heq; try done.
  rewrite !PyFacts.app_cons in Heq. simplify_eq/=.
  destruct (IH b) as [-> ->]; [lia|done|done].
Qed.

(** Two identifiers of one command are the same only when the random
    values behind them are. *)
Lemma _new_id_inj self i j :
  (_new_id self i).1 = (_new_id self j).1 ->
  uuid.uuid4 (os_urandom i) = uuid.uuid4 (os_urandom j).
Proof.
  unfold _new_id. cbn [fst]. intros Heq.
  apply string_app_inj in Heq as [_ Heq]; [|done].
  apply string_app_inj in Heq as [Heq _]; [|by rewrite !uuidFacts.length_str].
  by apply str_inj in Heq; [|apply uuidFacts.uuid4_range..].
Qed.

(** X4.  The identifiers given out in one document are pairwise distinct
    as soon as the UUIDs drawn for it are: no draw serves two tags, and the
    text of a UUID, with the prefix and the suffix around it, tells the
    UUID. *)
Theorem X4_distinct_uuids_give_distinct_ids self soup k p q
    (tagp tagq : PageElement) :
  (forall i j, k <= i < j -> j < (include_id_loop self soup k).2 ->
               uuid.uuid4 (os_urandom i) <> uuid.uuid4 (os_urandom j)) ->
  p ∈ assigned_positions self soup ->
  q ∈ assigned_positions self soup ->
  p <> q ->
  node_at p (include_id_loop self soup k).1 = Some tagp ->
  node_at q (include_id_loop self soup k).1 = Some tagq ->
  tag_get tagp "id" <> tag_get tagq "id".
Proof.
  intros Hdraws Hp Hq Hne Htagp Htagq Heq.
  destruct (include_id_loop_order self soup k) as [Hk Hv].
  apply list_elem_of_lookup_1 in Hp as [i Hi].
  apply list_elem_of_lookup_1 in Hq as [j Hj].
  pose proof (lookup_lt_Some _ _ _ Hi) as Hilt.
  pose proof (lookup_lt_Some _ _ _ Hj) as Hjlt.
  destruct (Hv i p Hi) as (? & ? & ? & ? & _ & _ & Hp').
  destruct (Hv j q Hj) as (? & ? & ? & ? & _ & _ & Hq').
  rewrite Htagp in Hp'. rewrite Htagq in Hq'. simplify_eq.
  cbn [tag_get] in Heq. rewrite !PyFacts.get_set_eq in Heq.
  injection Heq as Heq. apply _new_id_inj in Heq.
  destruct (decide (i = j)) as [->|Hij]; [by simplify_eq|].
  destruct (decide (i < j)).
  - apply (Hdraws (k + i) (k + j)); [lia|lia|done].
  - apply (Hdraws (k + j) (k + i)); [lia|lia|done].
Qed.

End Distinct.

(** ** Extensions and tag names: what the letter case of an option does *)

Section Options.
Context `{!Collaborators}.
Implicit Types (self : AddRandomIdCommand) (soup : PageElement).
Implicit Types (p q : position) (k : nat).

Lemma lower_char_dot (c : ascii) : Py.lower_char c = "."%char <-> c = "."%char.
Proof. split; [|by intros ->]. by destruct c as [[] [] [] [] [] [] [] []]. Qed.

(** Lower-casing neither adds nor removes a dot. *)
Lemma contains_lower_dot (s : string) :
  Py.contains (Py.lower s) "." = Py.contains s ".".
Proof.
  induction s as [|c s IH]; [done|]. cbn [Py.lower Py.contains Py.startswith].
  rewrite IH. f_equal. f_equal. apply bool_decide_ext, lower_char_dot.
Qed.

Lemma _is_valid_extension_lower (exts exts' : list string) (f f' : string) :
  Py.lower <$> exts = Py.lower <$> exts' ->
  Py.lower f = Py.lower f' ->
  existsb
    (fun ext =>
       Py.endswith (Py.lower f)
         ((if negb (Py.contains ext ".") then "." else "") +:+ Py.lower ext)) exts
  = existsb
      (fun ext =>
         Py.endswith (Py.lower f')
           ((if negb (Py.contains ext ".") then "." else "") +:+ Py.lower ext)) exts'.
Proof.
  intros Hexts ->. revert exts' Hexts.
  induction exts as [|ext exts IH]; intros [|ext' exts'] Hexts; try done.
  simplify_eq/=. rewrite (IH exts') by done. f_equal.
  rewrite <- (contains_lower_dot ext), <- (contains_lower_dot ext').
  by match goal with Heq : Py.lower _ = Py.lower _ |- _ => rewrite Heq end.
Qed.

(** X8.  Extensions are matched without regard to letter case on both
    sides: commands whose extensions are the same up to case accept the
    same file names, and a file name is accepted or not whatever its own
    letter case.  (Tag names are not treated so: there the case of the
    configured names counts.) *)
Theorem X8_extensions_ignore_case self self' (filename filename' : string) :
  Py.lower <$> extensions self = Py.lower <$> extensions self' ->
  Py.lower filename = Py.lower filename' ->
  _is_valid_extension self filename = _is_valid_extension self' filename'.
Proof. intros Hexts Hf. by apply _is_valid_extension_lower. Qed.

(** X14.  The options replace the defaults, they do not add to them.
    Unless [exclude_tags] is given, a tag named script, head, title, html,
    br or style (in any letter case) goes through the loop with its
    attributes as they were, even when [include_tags] names it; and when
    [exclude_tags] is given without [include_tags], the tags left out are
    those of the given collection and no other, so that the six names of
    the default are valid again unless they are given too. *)
Theorem X14_options_replace_defaults (kw : kwargs) soup k p (name : string)
    (attrs : Py.dict) (cs : list PageElement) :
  node_at p soup = Some (Tag name attrs cs) ->
  (kw_exclude_tags kw = None ->
   Py.lower name ∈ ["script"; "head"; "title"; "html"; "br"; "style"] ->
   exists cs',
     node_at p (include_id_loop (__init__ kw) soup k).1 = Some (Tag name attrs cs'))
  /\ (forall given,
        kw_exclude_tags kw = Some given ->
        kw_include_tags kw = None ->
        _is_valid_tag (__init__ kw) (Tag name attrs cs)
        = negb (Py.mem (Py.lower name) given)).
Proof.
  intros Hp. split.
  - intros Hkw Hname.
    pose proof (include_id_loop_at (__init__ kw) soup k p name attrs cs Hp) as Hat.
    destruct (include_id_loop (__init__ kw) soup k) as [soup' k']. cbn [fst].
    destruct Hat as (attrs' & cs' & Hp' & Hat).
    assert (needs_id (__init__ kw) (Tag name attrs cs) = false) as Hn.
    { unfold needs_id, _is_valid_tag, __init__, _get_exclude_tags, Py.mem.
      cbn [exclude_tags]. rewrite Hkw. cbn [default Py.items].
      by rewrite (bool_decide_eq_true_2 _ Hname). }
    rewrite Hn in Hat. cbn [andb] in Hat. subst attrs'. eauto.
  - intros given Hex Hin.
    unfold _is_valid_tag, __init__, _get_exclude_tags, _get_include_tags.
    cbn [exclude_tags include_tags]. rewrite Hex, Hin. cbn [default].
    unfold Py.eq_list. by rewrite bool_decide_eq_true_2, andb_true_r.
Qed.

(** X17.  Unless [prefix] or [suffix] is given, a generated identifier is
    the text of the UUID and nothing more: 36 characters in the shape of a
    version-4 UUID. *)
Theorem X17_default_id_is_the_bare_uuid (kw : kwargs) (j : nat) :
  kw_prefix kw = None ->
  kw_suffix kw = None ->
  (_new_id (__init__ kw) j).1 = uuid.str (uuid.uuid4 (os_urandom j))
  /\ String.length (_new_id (__init__ kw) j).1 = 36
  /\ is_uuid4_str (_new_id (__init__ kw) j).1 = true.
Proof.
  intros Hprefix Hsuffix.
  assert ((_new_id (__init__ kw) j).1 = uuid.str (uuid.uuid4 (os_urandom j))) as ->.
  { unfold _new_id, __init__, _get_prefix, _get_suffix. cbn [fst prefix suffix].
    rewrite Hprefix, Hsuffix. cbn [default]. unfold __PREFIX, __SUFFIX.
    by rewrite PyFacts.app_nil_l, PyFacts.app_nil_r. }
  split_and!; [done|apply uuidFacts.length_str|apply uuidFacts.uuid4_str_shape].
Qed.

(** X18.  Unless [extensions] is given, the files that count are those
    whose path, in lower case, ends with [.html], [.hml] or [.xhtml]. *)
Theorem X18_default_extensions (kw : kwargs) (filename : string) :
  kw_extensions kw = None ->
  _is_valid_extension (__init__ kw) filename = true <->
  exists s0,
    Py.lower filename = s0 +:+ ".html"
    \/ Py.lower filename = s0 +:+ ".hml"
    \/ Py.lower filename = s0 +:+ ".xhtml".
Proof.
  intros Hext. rewrite _is_valid_extension_spec.
  unfold __init__, _get_extensions. cbn [extensions]. rewrite Hext.
  cbn [default]. unfold __EXTENSIONS. split.
  - intros (ext & s0 & Hin & Heq). exists s0.
    repeat (apply elem_of_cons in Hin as [->|Hin]; [by auto|]).
    by apply elem_of_nil in Hin.
  - intros (s0 & [Heq|[Heq|Heq]]).
    + exists "html", s0. split; [left|done].
    + exists "hml", s0. split; [right; left|done].
    + exists "xhtml", s0. split; [do 2 right; left|done].
Qed.

End Options.

(** ** Discovery: the list of names and its order *)

Section Listing.
Implicit Types (self : AddRandomIdCommand) (fs : FileSystem).
Implicit Types (top f : string) (entries : list fs_node).

Lemma foldl_app_acc {A B} (g : list A -> B -> list A) (es : list B) :
  (forall e, e ∈ es -> forall a, g a e = a ++ g [] e) ->
  forall a, foldl g a es = a ++ foldl g [] es.
Proof.
  induction es as [|e es IH]; intros Hg a; [by rewrite app_nil_r|].
  assert (forall e', e' ∈ es -> forall a, g a e' = a ++ g [] e') as Hes
    by (intros e' He'; apply Hg; by right).
  cbn [foldl]. rewrite (IH Hes (g a e)), (IH Hes (g [] e)).
  rewrite (Hg e) by left. by rewrite app_assoc.
Qed.

(** The walk only adds to the result it is given. *)
Lemma walk_from_acc self (d : fs_node) top (acc : list string) :
  walk_from (find_file_names_body self) top d acc
  = acc ++ walk_from (find_file_names_body self) top d [].
Proof.
  revert top acc.
  induction d as [name|name islink|name islink entries IH] using fs_node_ind';
    intros top acc; [by rewrite app_nil_r..|].
  cbn [walk_from]. rewrite !find_file_names_body_spec. cbv beta iota.
  match goal with |- foldl ?g _ _ = _ => set (down := g) end.
  assert (forall e, e ∈ entries -> forall a, down a e = a ++ down [] e) as Hdown.
  { intros e He a. unfold down. destruct e as [n|n l o]; [by rewrite app_nil_r|].
    destruct (_ && _); [|by rewrite app_nil_r].
    rewrite Forall_forall in IH. by apply IH. }
  rewrite (foldl_app_acc down entries Hdown (acc ++ _)),
    (foldl_app_acc down entries Hdown ([] ++ _)).
  by rewrite app_nil_l, !app_assoc.
Qed.

(** Without [recursive] the walk of a directory gives its valid files, in
    the order of the directory, and goes into no directory. *)
Lemma walk_from_flat self top (name : string) (islink : bool) entries
    (acc : list string) :
  recursive self = false ->
  walk_from (find_file_names_body self) top (FsDir name islink (Some entries)) acc
  = acc ++ filter (fun f => _is_valid_extension self f = true)
             (os_path_join top <$> nondir_names entries).
Proof.
  intros Hrec. cbn [walk_from]. rewrite find_file_names_body_spec, Hrec.
  cbv beta iota. set (found := acc ++ _). clearbody found.
  induction entries as [|[n|n l o] es IH]; [done|exact IH|].
  cbn [foldl]. rewrite bool_decide_eq_false_2 by apply not_elem_of_nil. exact IH.
Qed.

(** The valid files of a directory come before those of the directories
    below it. *)
Lemma walk_from_files_first self top (name : string) (islink : bool) entries
    (acc : list string) :
  exists rest,
    walk_from (find_file_names_body self) top (FsDir name islink (Some entries)) acc
    = (acc ++ filter (fun f => _is_valid_extension self f = true)
                (os_path_join top <$> nondir_names entries)) ++ rest.
Proof.
  cbn [walk_from]. rewrite find_file_names_body_spec. cbv beta iota.
  match goal with |- context [foldl ?g _ _] => set (down := g) end.
  exists (foldl down [] entries). apply foldl_app_acc.
  intros e He a. unfold down. destruct e as [n|n l o]; [by rewrite app_nil_r|].
  destruct (_ && _); [apply walk_from_acc|by rewrite app_nil_r].
Qed.

Lemma _is_valid_extension_ext self self' f :
  extensions self' = extensions self ->
  _is_valid_extension self' f = _is_valid_extension self f.
Proof. unfold _is_valid_extension. by intros ->. Qed.

Lemma find_file_names_body_ext self self' (result : list string) top
    (directories files : list string) :
  extensions self' = extensions self ->
  recursive self' = recursive self ->
  find_file_names_body self' result top directories files
  = find_file_names_body self result top directories files.
Proof.
  intros Hext Hrec. unfold find_file_names_body, _is_valid_extension.
  by rewrite Hext, Hrec.
Qed.

Lemma walk_from_ext {A}
    (body body' : A -> string -> list string -> list string -> A * list string) :
  (forall a t ds files, body a t ds files = body' a t ds files) ->
  forall (d : fs_node) top (acc : A),
    walk_from body top d acc = walk_from body' top d acc.
Proof.
  intros Hbody.
  induction d as [name|name islink|name islink entries IH] using fs_node_ind';
    intros top acc; [done..|].
  cbn [walk_from]. rewrite Hbody.
  destruct (body' acc top (dir_names entries) (nondir_names entries))
    as [acc' dirs].
  revert acc'. induction IH as [|e es He Hes IHes]; intros acc'; [done|].
  cbn [foldl]. rewrite <- IHes. f_equal.
  destruct e as [n|n l o]; [done|]. by destruct (_ && _).
Qed.

(** Every name found passes the test on extensions. *)
Lemma find_file_names_valid self fs f :
  f ∈ _find_file_names self fs -> _is_valid_extension self f = true.
Proof.
  unfold _find_file_names, os_walk.
  destruct (resolve fs (path self)) as [d|]; [|by intros ?%elem_of_nil].
  rewrite walk_from_spec. intros [?%elem_of_nil|Hd]; [done|].
  destruct d as [|? ? [?|]]; [done|by destruct Hd|done].
Qed.

(** X5.  Without [recursive], the result is the list of the entries of
    the base directory that are not directories, each joined to the path,
    in the order the directory gives them, those with a valid extension
    kept: nothing else, nothing twice that the directory does not list
    twice. *)
Theorem X5_flat_listing_in_directory_order self fs (name : string)
    (islink : bool) entries :
  resolve fs (path self) = Some (FsDir name islink (Some entries)) ->
  recursive self = false ->
  _find_file_names self fs
  = filter (fun f => _is_valid_extension self f = true)
      (os_path_join (path self) <$> nondir_names entries).
Proof.
  intros Hroot Hrec. unfold _find_file_names, os_walk. rewrite Hroot.
  by rewrite walk_from_flat.
Qed.

(** X6.  Discovery reads three options only: two commands with the same
    [path], [extensions] and [recursive] find the same names in the same
    order.  And [recursive] only adds names, after the others: what is
    found without it is the beginning of what is found with it. *)
Theorem X6_recursive_only_appends self self' fs :
  path self' = path self ->
  extensions self' = extensions self ->
  (recursive self' = recursive self ->
   _find_file_names self' fs = _find_file_names self fs)
  /\ (recursive self = false ->
      exists rest, _find_file_names self' fs = _find_file_names self fs ++ rest).
Proof.
  intros Hpath Hext. unfold _find_file_names, os_walk. rewrite Hpath. split.
  - intros Hrec. destruct (resolve fs (path self)) as [d|]; [|done].
    apply walk_from_ext. intros. by apply find_file_names_body_ext.
  - intros Hrec.
    destruct (resolve fs (path self)) as [[n|n l [entries|]]|];
      [by exists []..| |by exists []|by exists []].
    rewrite (walk_from_flat self) by done.
    destruct (walk_from_files_first self' (path self) n l entries [])
      as [rest ->].
    exists rest. f_equal. f_equal. apply filter_ext_in.
    intros f _. by rewrite (_is_valid_extension_ext self self').
Qed.

(** X7.  With an empty list of extensions no name is valid: discovery
    finds nothing in any directory tree, and [execute] returns at once,
    with every file as it was and no identifier drawn. *)
Theorem X7_no_extension_no_file `{!Collaborators} self fs (k : nat) :
  extensions self = [] ->
  (forall f, _is_valid_extension self f = false)
  /\ _find_file_names self fs = []
  /\ execute self fs k = Returned fs k.
Proof.
  intros Hext.
  assert (forall f, _is_valid_extension self f = false) as Hnone
    by (intros f; unfold _is_valid_extension; by rewrite Hext).
  assert (_find_file_names self fs = []) as Hnames.
  { destruct (_find_file_names self fs) as [|f names] eqn:Hfound; [done|].
    assert (f ∈ _find_file_names self fs) as Hf by (rewrite Hfound; left).
    apply find_file_names_valid in Hf. by rewrite Hnone in Hf. }
  split_and!; [done..|]. unfold execute. by rewrite Hnames.
Qed.

End Listing.

(** ** Runs of [execute] *)

Section Running.
Context `{!Collaborators}.
Implicit Types (self : AddRandomIdCommand) (fs : FileSystem).
Implicit Types (f g : string) (file k : nat).

Lemma _include_id_draws self (document : string) k :
  k <= (_include_id self document k).2.
Proof.
  rewrite _include_id_eq. cbn [snd].
  pose proof (include_id_loop_spec self (BeautifulSoup document) k) as Hspec.
  destruct (include_id_loop self (BeautifulSoup document) k) as [soup' k'].
  by destruct Hspec as [? _].
Qed.

Lemma lookup_write_file fs file file' (text : string) :
  texts (write_file fs file text) !! file'
  = if decide (file = file') then Some text else texts fs !! file'.
Proof. unfold write_file. cbn [texts]. apply lookup_insert. Qed.

Lemma kept_write_file fs k k' file (text : string) :
  k <= k' -> is_Some (texts fs !! file) ->
  (kept fs k [file] (Returned (write_file fs file text) k'))
  /\ kept fs k [file] (Raised (write_file fs file text) k').
Proof.
  intros Hk Hfile.
  assert (forall file', file' ∉ [file] ->
            texts (write_file fs file text) !! file' = texts fs !! file') as Hother.
  { intros file' Hne%not_elem_of_cons. rewrite lookup_write_file.
    by rewrite decide_False by (intros ->; by destruct Hne). }
  assert (forall file', is_Some (texts (write_file fs file text) !! file')
                        <-> is_Some (texts fs !! file')) as Hdom.
  { intros file'. rewrite lookup_write_file.
    destruct (decide (file = file')) as [->|]; [|done]. split; [done|by eexists]. }
  by split.
Qed.

Lemma kept_refl fs k (touched : list nat) :
  kept fs k touched (Returned fs k) /\ kept fs k touched (Raised fs k).
Proof. by split. Qed.

Lemma kept_more fs k (touched touched' : list nat) (o : outcome) :
  touched ⊆ touched' -> kept fs k touched o -> kept fs k touched' o.
Proof.
  intros Hsub (Hr & Ho & Hw & Hk & Hkeep & Hdom). split_and!; [done..| |done].
  intros file Hfile. apply Hkeep. intros Hin. apply Hfile, Hsub, Hin.
Qed.

Lemma kept_trans fs k (touched : list nat) fs1 k1 (o : outcome) :
  kept fs k touched (Returned fs1 k1) -> kept fs1 k1 touched o -> kept fs k touched o.
Proof.
  intros (Hr & Ho & Hw & Hk & Hkeep & Hdom) (Hr' & Ho' & Hw' & Hk' & Hkeep' & Hdom').
  cbn [outcome_fs outcome_draws] in *.
  split_and!; [congruence|congruence|congruence|lia| |].
  - intros file Hfile. by rewrite Hkeep', Hkeep.
  - intros file. by rewrite Hdom', Hdom.
Qed.

(** One round of the loop of [execute] writes no other file than the one
    its name opens. *)
Lemma execute_step_kept self fs k f :
  kept fs k (reached fs [f]) (execute_step self (Returned fs k) f).
Proof.
  unfold execute_step, reached. cbn [omap list_omap]. rewrite _read_spec.
  destruct (opens fs f) as [file|] eqn:Hopens; [|apply kept_refl].
  cbn [mbind option_bind]. destruct (texts fs !! file) as [text|] eqn:Htext;
    [|apply kept_refl].
  cbn [fmap option_fmap option_map].
  destruct (parser_rejects _); [apply kept_refl|].
  pose proof (_include_id_draws self (Py.universal_newlines text) k) as Hk.
  destruct (_include_id self (Py.universal_newlines text) k) as [document k'].
  cbn [snd] in Hk. unfold _save. rewrite Hopens.
  destruct (read_only fs file); [split_and!; done|].
  destruct (encodes _ _); by apply kept_write_file.
Qed.

(** Once an exception is up, the rest of the loop does not run. *)
Lemma execute_fold_Raised self fs k (l : list string) :
  foldl (execute_step self) (Raised fs k) l = Raised fs k.
Proof. induction l as [|f l IH]; [done|exact IH]. Qed.

Lemma reached_kept fs k (touched : list nat) fs1 k1 (l : list string) :
  kept fs k touched (Returned fs1 k1) -> reached fs1 l = reached fs l.
Proof. intros (_ & Ho & _). unfold reached. cbn [outcome_fs] in Ho. by rewrite Ho. Qed.

(** What any run of the loop of [execute] keeps, whether it returns or
    raises. *)
Lemma execute_fold_kept self (l : list string) fs k :
  kept fs k (reached fs l) (foldl (execute_step self) (Returned fs k) l).
Proof.
  revert fs k. induction l as [|f l IH]; intros fs k; [apply kept_refl|].
  cbn [foldl]. pose proof (execute_step_kept self fs k f) as Hstep.
  assert (reached fs [f] ⊆ reached fs (f :: l)) as Hsub1.
  { unfold reached. cbn [omap list_omap]. destruct (opens fs f); set_solver. }
  assert (reached fs l ⊆ reached fs (f :: l)) as Hsub2.
  { unfold reached. cbn [omap list_omap]. destruct (opens fs f); set_solver. }
  destruct (execute_step self (Returned fs k) f) as [fs1 k1|fs1 k1].
  - apply (kept_trans fs k _ fs1 k1);
      [exact (kept_more fs k _ _ _ Hsub1 Hstep)|].
    apply (kept_more fs1 k1 (reached fs1 l)); [|apply IH].
    by rewrite (reached_kept fs k _ fs1 k1 l Hstep).
  - rewrite execute_fold_Raised. exact (kept_more fs k _ _ _ Hsub1 Hstep).
Qed.

Lemma find_file_names_resolve self fs fs' :
  resolve fs' = resolve fs -> _find_file_names self fs' = _find_file_names self fs.
Proof. unfold _find_file_names, os_walk. by intros ->. Qed.

Lemma contains_cr (c : ascii) (s : string) :
  Py.contains (String c s) (String "013" "")
  = bool_decide (c = "013"%char) || Py.contains s (String "013" "").
Proof. cbn [Py.contains Py.startswith]. by rewrite andb_true_r. Qed.

Lemma universal_newlines_no_cr (text : string) :
  Py.contains (Py.universal_newlines text) (String "013" "") = false.
Proof.
  assert (forall n (s : string), String.length s <= n ->
            Py.contains (Py.universal_newlines s) (String "013" "") = false) as Hn;
    [|by apply (Hn (String.length text))].
  induction n as [|n IH]; intros [|c s] Hlen; try done; [simpl in Hlen; lia|].
  cbn [Py.universal_newlines String.length] in *. case_bool_decide as Hc.
  - rewrite contains_cr. rewrite bool_decide_eq_false_2 by done. cbn [orb].
    destruct s as [|c' s']; [done|]. cbn [String.length] in Hlen.
    case_bool_decide; apply IH; cbn [String.length]; lia.
  - rewrite contains_cr, bool_decide_eq_false_2 by done. apply IH. lia.
Qed.

Lemma universal_newlines_id (text : string) :
  Py.contains text (String "013" "") = false -> Py.universal_newlines text = text.
Proof.
  induction text as [|c s IH]; [done|]. rewrite contains_cr.
  intros [Hc Hs]%orb_false_iff. cbn [Py.universal_newlines].
  rewrite Hc. by rewrite IH.
Qed.

(** X12.  [_read] gives the characters of the file that the name opens
    with the line ends translated, as a file opened in text mode does:
    every carriage return, with the line feed after it if any, comes out
    as one line feed, so that the text returned holds no carriage return;
    a text without carriage return comes out unchanged; and [_read] raises
    exactly when the name opens no file or the file cannot be decoded.
    Cutting the text into lines and joining them loses nothing. *)
Theorem X12_read_translates_line_ends fs (filename : string) :
  _read fs filename = Py.universal_newlines <$> text_of fs filename
  /\ (_read fs filename = None <-> text_of fs filename = None)
  /\ (forall text : string,
        Py.contains (Py.universal_newlines text) (String "013" "") = false)
  /\ (forall text : string,
        Py.contains text (String "013" "") = false ->
        Py.universal_newlines text = text).
Proof.
  split_and!.
  - apply _read_spec.
  - rewrite _read_spec. apply fmap_None.
  - apply universal_newlines_no_cr.
  - apply universal_newlines_id.
Qed.

(** X9.  What [execute] leaves alone, whether it returns or raises: the
    directory tree, and so what discovery finds in it; the file that each
    name opens; the characters of every file that none of the names found
    opens; and the set of files, none being made and none removed.  A file
    that a name found reaches through a symbolic link is not among the
    files left alone, whatever its own name.  The count of identifiers
    drawn never goes down. *)
Theorem X9_execute_writes_opened_files_only self fs k :
  resolve (outcome_fs (execute self fs k)) = resolve fs
  /\ opens (outcome_fs (execute self fs k)) = opens fs
  /\ _find_file_names self (outcome_fs (execute self fs k))
     = _find_file_names self fs
  /\ (forall file,
        (forall f, f ∈ _find_file_names self fs -> opens fs f <> Some file) ->
        texts (outcome_fs (execute self fs k)) !! file = texts fs !! file)
  /\ (forall file, is_Some (texts (outcome_fs (execute self fs k)) !! file)
                   <-> is_Some (texts fs !! file))
  /\ k <= outcome_draws (execute self fs k).
Proof.
  unfold execute.
  destruct (execute_fold_kept self (_find_file_names self fs) fs k)
    as (Hr & Ho & _ & Hk & Hkeep & Hdom).
  split_and!; [done|done|by apply find_file_names_resolve| |done|done].
  intros file Hfile. apply Hkeep. unfold reached.
  intros (f & Hf & Hopens)%list_elem_of_omap. by apply (Hfile f).
Qed.

Lemma _read_None_kept fs k (touched : list nat) fs1 k1 f :
  kept fs k touched (Returned fs1 k1) -> _read fs f = None -> _read fs1 f = None.
Proof.
  intros (_ & Ho & _ & _ & _ & Hdom). cbn [outcome_fs] in *.
  rewrite !_read_spec, !fmap_None, Ho.
  destruct (opens fs f) as [file|]; [|done]. cbn [mbind option_bind].
  rewrite !eq_None_not_Some. by rewrite Hdom.
Qed.

Lemma execute_step_unreadable self fs k f :
  _read fs f = None -> execute_step self (Returned fs k) f = Raised fs k.
Proof. intros Hread. unfold execute_step. by rewrite Hread. Qed.

(** X11.  A name that discovery found and that cannot be read (it opens
    no file, or the file cannot be decoded) makes [execute] raise, whatever
    the other files are.  The run stops there at the latest: when the
    names before it went through, the exception goes up with the file
    system as those rounds left it, nothing being undone. *)
Theorem X11_unreadable_file_raises self fs k (before after : list string) f :
  _find_file_names self fs = before ++ f :: after ->
  _read fs f = None ->
  (exists fs' k', execute self fs k = Raised fs' k')
  /\ (forall fs1 k1,
        foldl (execute_step self) (Returned fs k) before = Returned fs1 k1 ->
        execute self fs k = Raised fs1 k1).
Proof.
  intros Hnames Hread. unfold execute. rewrite Hnames, foldl_app. cbn [foldl].
  pose proof (execute_fold_kept self before fs k) as Hkept.
  destruct (foldl (execute_step self) (Returned fs k) before) as [fs1 k1|fs1 k1].
  - rewrite execute_step_unreadable, execute_fold_Raised
      by (by eapply _read_None_kept).
    split; [by eauto|]. intros ?? ?. by simplify_eq.
  - change (execute_step self (Raised fs1 k1) f) with (Raised fs1 k1).
    rewrite execute_fold_Raised. split; [by eauto|done].
Qed.

(** A round in which nothing fails. *)
Lemma execute_step_saved self fs k f file (t : string) :
  opens fs f = Some file -> texts fs !! file = Some t ->
  read_only fs file = false ->
  parser_rejects (Py.universal_newlines t) = false ->
  encodes (encoding self) (_include_id self (Py.universal_newlines t) k).1 = true ->
  execute_step self (Returned fs k) f
  = Returned (write_file fs file (_include_id self (Py.universal_newlines t) k).1)
      (_include_id self (Py.universal_newlines t) k).2.
Proof.
  intros Hopens Ht Hw Hparse Henc. unfold execute_step.
  rewrite _read_spec, Hopens. cbn [mbind option_bind]. rewrite Ht.
  cbn [fmap option_fmap option_map]. rewrite Hparse.
  destruct (_include_id self (Py.universal_newlines t) k) as [d k'].
  cbn [fst snd] in *. unfold _save. by rewrite Hopens, Hw, Henc.
Qed.

(** The loop of [execute] when nothing fails. *)
Lemma execute_fold_saved self (l : list string) fs k :
  (forall d, parser_rejects d = false) ->
  (forall d, encodes (encoding self) d = true) ->
  (forall f, f ∈ l ->
     exists file, opens fs f = Some file /\ is_Some (texts fs !! file)
                  /\ read_only fs file = false) ->
  exists fs' k',
    foldl (execute_step self) (Returned fs k) l = Returned fs' k'
    /\ (NoDup (reached fs l) ->
        forall f file (t : string),
          f ∈ l -> opens fs f = Some file -> texts fs !! file = Some t ->
          exists j, k <= j
                    /\ (_include_id self (Py.universal_newlines t) j).2 <= k'
                    /\ texts fs' !! file
                       = Some (_include_id self (Py.universal_newlines t) j).1).
Proof.
  intros Hparse Henc. revert fs k. induction l as [|f l IH]; intros fs k Hl.
  - exists fs, k. split; [done|]. by intros _ f file t ?%elem_of_nil.
  - destruct (Hl f) as (file & Hopens & [t Ht] & Hw); [left|]. cbn [foldl].
    rewrite (execute_step_saved self fs k f file t) by done.
    set (d1 := (_include_id self (Py.universal_newlines t) k).1).
    set (k1 := (_include_id self (Py.universal_newlines t) k).2).
    pose proof (_include_id_draws self (Py.universal_newlines t) k) as Hk1.
    destruct (IH (write_file fs file d1) k1) as (fs' & k' & Hfold & Hnew).
    { intros g Hg. destruct (Hl g) as (file' & ? & ? & ?); [by right|].
      exists file'. split_and!; [done| |done]. rewrite lookup_write_file.
      by destruct (decide (file = file')). }
    exists fs', k'. split; [done|].
    unfold reached. cbn [omap list_omap]. rewrite Hopens.
    intros [Hfile Hnd]%NoDup_cons g file' t' Hg Hopens' Ht'.
    pose proof (execute_fold_kept self l (write_file fs file d1) k1) as Hkept.
    rewrite Hfold in Hkept. destruct Hkept as (_ & _ & _ & Hk' & Hkeep & _).
    cbn [outcome_fs outcome_draws] in Hk', Hkeep.
    apply elem_of_cons in Hg as [->|Hg].
    + rewrite Hopens in Hopens'. simplify_eq. exists k.
      split_and!; [done|done|]. rewrite Hkeep by done.
      by rewrite lookup_write_file, decide_True.
    + assert (file <> file') as Hne.
      { intros ->. apply Hfile, list_elem_of_omap. by exists g. }
      destruct (Hnew Hnd g file' t' Hg Hopens') as (j & Hj & Hj' & Hsaved).
      { by rewrite lookup_write_file, decide_False. }
      exists j. split_and!; [lia|done|done].
Qed.

(** X10.  When the parser rejects no text and the codec encodes every
    text, and each name that discovery found opens a file that can be
    decoded and written, [execute] returns.  When moreover no two names
    open the same file, each of these files then holds what [_include_id]
    makes of the characters it held, line ends translated, the identifiers
    being drawn file after file. *)
Theorem X10_files_are_all_rewritten self fs k :
  (forall d, parser_rejects d = false) ->
  (forall d, encodes (encoding self) d = true) ->
  (forall f, f ∈ _find_file_names self fs ->
     exists file, opens fs f = Some file /\ is_Some (texts fs !! file)
                  /\ read_only fs file = false) ->
  exists fs' k',
    execute self fs k = Returned fs' k'
    /\ k <= k'
    /\ (NoDup (reached fs (_find_file_names self fs)) ->
        forall f file (t : string),
          f ∈ _find_file_names self fs ->
          opens fs f = Some file -> texts fs !! file = Some t ->
          exists j, k <= j
                    /\ (_include_id self (Py.universal_newlines t) j).2 <= k'
                    /\ texts fs' !! file
                       = Some (_include_id self (Py.universal_newlines t) j).1).
Proof.
  intros Hparse Henc Hfiles. unfold execute.
  destruct (execute_fold_saved self _ fs k Hparse Henc Hfiles)
    as (fs' & k' & Hfold & Hnew).
  exists fs', k'. split_and!; [done| |done].
  pose proof (execute_fold_kept self (_find_file_names self fs) fs k) as Hkept.
  rewrite Hfold in Hkept. by destruct Hkept as (_ & _ & _ & ? & _).
Qed.

Lemma _include_id_count self (document : string) k :
  (_include_id self document k).2
  = k + length (assigned_positions self (BeautifulSoup document)).
Proof.
  rewrite _include_id_eq. cbn [snd].
  by destruct (include_id_loop_order self (BeautifulSoup document) k) as [Hk _].
Qed.

Lemma execute_fold_count self (l : list string) fs k :
  (forall d, parser_rejects d = false) ->
  (forall d, encodes (encoding self) d = true) ->
  (forall f, f ∈ l ->
     exists file, opens fs f = Some file /\ is_Some (texts fs !! file)
                  /\ read_only fs file = false) ->
  NoDup (reached fs l) ->
  outcome_draws (foldl (execute_step self) (Returned fs k) l)
  = k + sum_list (tags_to_identify self fs <$> l).
Proof.
  intros Hparse Henc. revert fs k.
  induction l as [|f l IH]; intros fs k Hl Hnd; [simpl; lia|].
  destruct (Hl f) as (file & Hopens & [t Ht] & Hw); [left|]. cbn [foldl].
  rewrite (execute_step_saved self fs k f file t) by done.
  unfold reached in Hnd. cbn [omap list_omap] in Hnd. rewrite Hopens in Hnd.
  apply NoDup_cons in Hnd as [Hfile Hnd].
  set (fs1 := write_file fs file (_include_id self (Py.universal_newlines t) k).1).
  assert (forall g, g ∈ l -> _read fs1 g = _read fs g) as Hread.
  { intros g Hg. destruct (Hl g) as (file' & Hopens' & _); [by right|].
    rewrite !_read_spec. change (opens fs1 g) with (opens fs g).
    rewrite Hopens'. cbn [mbind option_bind]. unfold fs1.
    rewrite lookup_write_file, decide_False; [done|].
    intros ->. apply Hfile, list_elem_of_omap. by exists g. }
  rewrite IH; [| |done].
  - rewrite _include_id_count. cbn [fmap list_fmap sum_list].
    assert (tags_to_identify self fs f
            = length (assigned_positions self
                        (BeautifulSoup (Py.universal_newlines t)))) as ->.
    { unfold tags_to_identify. rewrite _read_spec, Hopens.
      cbn [mbind option_bind]. by rewrite Ht. }
    assert (tags_to_identify self fs1 <$> l = tags_to_identify self fs <$> l)
      as ->; [|unfold id; lia].
    apply list_fmap_ext. intros i g Hg%list_elem_of_lookup_2.
    unfold tags_to_identify. by rewrite Hread.
  - intros g Hg. destruct (Hl g) as (file' & ? & ? & ?); [by right|].
    exists file'. split_and!; [done| |done]. unfold fs1.
    rewrite lookup_write_file. by destruct (decide (file = file')).
Qed.

(** X16.  A run in which nothing fails and no two names open the same
    file draws as many identifiers as the files found have tags that pass
    the test of the loop, counted on the texts as [_read] gives them
    before the run: one for each, and none besides. *)
Theorem X16_draws_of_a_run self fs k :
  (forall d, parser_rejects d = false) ->
  (forall d, encodes (encoding self) d = true) ->
  (forall f, f ∈ _find_file_names self fs ->
     exists file, opens fs f = Some file /\ is_Some (texts fs !! file)
                  /\ read_only fs file = false) ->
  NoDup (reached fs (_find_file_names self fs)) ->
  outcome_draws (execute self fs k)
  = k + sum_list (tags_to_identify self fs <$> _find_file_names self fs).
Proof. intros. unfold execute. by apply execute_fold_count. Qed.

Lemma write_file_same fs file (t : string) :
  texts fs !! file = Some t -> write_file fs file t = fs.
Proof.
  intros Ht. destruct fs as [res op txt ro]. unfold write_file.
  cbn [resolve opens texts read_only] in *. f_equal. by apply insert_id.
Qed.

(** X13.  A tree that was processed is a fixed point of [execute].  When
    each name that discovery found opens a file that may be written and
    whose text has no carriage return, is accepted by the parser and
    encoded by the codec, has no tag left that passes the test of the
    loop, and is given back by the writer from what the reader finds in
    it, the run returns with the file system it started from and draws no
    identifier.  Two names may open the same file. *)
Theorem X13_processed_tree_is_a_fixed_point self fs k :
  (forall f, f ∈ _find_file_names self fs ->
     exists file (t : string),
       opens fs f = Some file /\ texts fs !! file = Some t
       /\ read_only fs file = false
       /\ Py.contains t (String "013" "") = false
       /\ parser_rejects t = false
       /\ encodes (encoding self) t = true
       /\ assigned_positions self (BeautifulSoup t) = []
       /\ soup_str (BeautifulSoup t) = t) ->
  execute self fs k = Returned fs k.
Proof.
  unfold execute. induction (_find_file_names self fs) as [|f l IH];
    intros Hdone; [done|].
  destruct (Hdone f) as (file & t & Hopens & Ht & Hw & Hcr & Hparse & Henc
                         & Hnone & Hstr); [left|].
  cbn [foldl]. apply universal_newlines_id in Hcr.
  assert (_include_id self t k = (t, k)) as Hid.
  { rewrite _include_id_eq, include_id_loop_nothing by done.
    cbn [fst snd]. by rewrite Hstr. }
  rewrite (execute_step_saved self fs k f file t), Hcr, Hid;
    [|done|done|done|by rewrite Hcr|by rewrite Hcr, Hid].
  cbn [fst snd]. rewrite write_file_same by done.
  apply IH. intros g Hg. apply Hdone. by right.
Qed.

End Running.

(** ** These properties at concrete inputs *)

Section MoreRuns.
Local Existing Instance plain_markup.

Lemma X3_witness :
  (exists j cs',
     0 <= j < (include_id_loop default_command Sample.soup 0).2
     /\ node_at [0; 0; 0] (include_id_loop default_command Sample.soup 0).1
        = Some (Tag "div" ([] ++ [("id", (_new_id default_command j).1)]) cs'))
  /\ exists attrs' cs',
       node_at [0] (include_id_loop default_command Sample.empty_id 0).1
       = Some (Tag "p" attrs' cs')
       /\ attrs'.*1 = ["id"; "class"].
Proof.
  split.
  - destruct (X3_id_goes_last_or_in_place default_command Sample.soup 0
                [0; 0; 0] "div" [] [NavigableString "x"])
      as [Hlast _]; [done|reflexivity|reflexivity|].
    by apply Hlast.
  - destruct (X3_id_goes_last_or_in_place default_command Sample.empty_id 0
                [0] "p" [("id", ""); ("class", "c")] [NavigableString "y"])
      as [_ Hplace]; [done|reflexivity|reflexivity|].
    destruct (Hplace eq_refl) as (attrs' & cs' & Hnode & Hkeys & _).
    by exists attrs', cs'.
Defined.

Lemma X4_witness :
  exists tagp tagq,
    node_at [0; 0] (include_id_loop default_command Sample.soup 0).1 = Some tagp
    /\ node_at [0; 0; 0] (include_id_loop default_command Sample.soup 0).1 = Some tagq
    /\ tag_get tagp "id" <> tag_get tagq "id".
Proof.
  eexists _, _. split; [by vm_compute|]. split; [by vm_compute|].
  apply (X4_distinct_uuids_give_distinct_ids default_command Sample.soup 0
           [0; 0] [0; 0; 0]).
  - intros i j Hij Hj.
    change ((include_id_loop default_command Sample.soup 0).2) with 2 in Hj.
    assert (i = 0) as -> by lia. assert (j = 1) as -> by lia.
    by vm_compute.
  - by apply (list_elem_of_lookup_2 _ 0).
  - by apply (list_elem_of_lookup_2 _ 1).
  - done.
  - by vm_compute.
  - by vm_compute.
Defined.

Lemma X5_witness :
  _find_file_names default_command Sample.fs
  = filter (fun f => _is_valid_extension default_command f = true)
      (os_path_join "." <$> ["index.html"; "notes.txt"]).
Proof.
  by apply (X5_flat_listing_in_directory_order default_command Sample.fs
              "." false Sample.entries).
Defined.

Lemma X6_witness :
  exists rest,
    _find_file_names Sample.recursive_command Sample.fs
    = _find_file_names default_command Sample.fs ++ rest.
Proof.
  destruct (X6_recursive_only_appends default_command Sample.recursive_command
              Sample.fs) as [_ Hadds]; [reflexivity..|].
  by apply Hadds.
Defined.

Lemma X7_witness :
  (forall f, _is_valid_extension Sample.no_extensions f = false)
  /\ _find_file_names Sample.no_extensions Sample.fs = []
  /\ execute Sample.no_extensions Sample.fs 0 = Returned Sample.fs 0.
Proof. by apply X7_no_extension_no_file. Defined.

Lemma X8_witness :
  _is_valid_extension default_command "./Sub/Index.HTML"
  = _is_valid_extension Sample.upper_extensions "./sub/index.html".
Proof. by apply X8_extensions_ignore_case. Defined.

Lemma X10_witness :
  exists fs' k',
    execute default_command Sample.fs 0 = Returned fs' k'
    /\ exists j,
         texts fs' !! 0
         = Some (_include_id default_command
                   (Py.universal_newlines Sample.document) j).1.
Proof.
  destruct (X10_files_are_all_rewritten default_command Sample.fs 0)
    as (fs' & k' & Hrun & _ & Hnew); [done|done| |].
  - intros f Hf.
    change (_find_file_names default_command Sample.fs) with ["./index.html"] in Hf.
    apply list_elem_of_singleton in Hf as ->. exists 0.
    split; [reflexivity|]. split; [by exists Sample.document|reflexivity].
  - exists fs', k'. split; [exact Hrun|].
    destruct (Hnew (NoDup_singleton 0) "./index.html" 0 Sample.document)
      as (j & _ & _ & Hsaved);
      [by apply list_elem_of_singleton|reflexivity|reflexivity|].
    exists j. exact Hsaved.
Defined.

Lemma X11_witness :
  exists fs' k', execute Sample.recursive_command Sample.fs 0 = Raised fs' k'.
Proof.
  destruct (X11_unreadable_file_raises Sample.recursive_command Sample.fs 0
              ["./index.html"] ["./sub/deep/x.hml"] "./sub/page.XHTML")
    as [Hraised _]; [reflexivity|reflexivity|exact Hraised].
Defined.

Lemma X13_witness :
  execute default_command Sample.done_fs 3 = Returned Sample.done_fs 3.
Proof.
  apply X13_processed_tree_is_a_fixed_point. intros f Hf.
  change (_find_file_names default_command Sample.done_fs)
    with ["./index.html"] in Hf.
  apply list_elem_of_singleton in Hf as ->.
  exists 0, Sample.with_ids. split_and!; by vm_compute.
Defined.

Lemma X16_witness :
  outcome_draws (execute default_command Sample.fs 0)
  = 0 + sum_list (tags_to_identify default_command Sample.fs
                    <$> _find_file_names default_command Sample.fs).
Proof.
  apply X16_draws_of_a_run; [done|done| |].
  - intros f Hf.
    change (_find_file_names default_command Sample.fs) with ["./index.html"] in Hf.
    apply list_elem_of_singleton in Hf as ->. exists 0.
    split; [reflexivity|]. split; [by exists Sample.document|reflexivity].
  - change (reached Sample.fs (_find_file_names default_command Sample.fs))
      with [0].
    apply NoDup_singleton.
Defined.

Lemma X14_witness :
  (exists cs',
     node_at [0] (include_id_loop (__init__ Sample.only_html_p) Sample.soup 0).1
     = Some (Tag "html" [] cs'))
  /\ _is_valid_tag Sample.exclude_div (Tag "html" [] []) = true.
Proof.
  split.
  - destruct (X14_options_replace_defaults Sample.only_html_p Sample.soup 0 [0]
                "html" []
                [Tag "body" []
                   [Tag "div" [] [NavigableString "x"];
                    Tag "p" [("id", "k")] [NavigableString "y"]]])
      as [Hkept _]; [reflexivity|].
    apply Hkept; [reflexivity|]. by apply (bool_decide_unpack _).
  - destruct (X14_options_replace_defaults
                {| kw_path := None; kw_recursive := None;
                   kw_exclude_tags := Some (Py.PyList ["div"]);
                   kw_include_tags := None; kw_encoding := None;
                   kw_extensions := None; kw_prefix := None; kw_suffix := None |}
                (Tag "html" [] []) 0 [] "html" [] [])
      as [_ Hgiven]; [reflexivity|].
    unfold Sample.exclude_div. by rewrite (Hgiven (Py.PyList ["div"])).
Defined.

Lemma X17_witness :
  (_new_id default_command 0).1 = uuid.str (uuid.uuid4 (os_urandom 0))
  /\ String.length (_new_id default_command 0).1 = 36
  /\ is_uuid4_str (_new_id default_command 0).1 = true.
Proof. by apply (X17_default_id_is_the_bare_uuid no_kwargs 0). Defined.

Lemma X18_witness :
  _is_valid_extension default_command "./Sub/Index.HTML" = true.
Proof.
  apply (X18_default_extensions no_kwargs); [reflexivity|].
  exists "./sub/index". by left.
Defined.

(** A file without a valid extension is written when a name that
    discovery found is a symbolic link to it. *)
Example scenario_symbolic_link :
  _find_file_names default_command Sample.linked_fs = ["./link.html"]
  /\ opens Sample.linked_fs "./notes.txt" = Some 1
  /\ texts (outcome_fs (execute default_command Sample.linked_fs 0)) !! 1
     <> texts Sample.linked_fs !! 1.
Proof.
  split; [reflexivity|]. split; [reflexivity|].
  intros Heq. vm_compute in Heq. discriminate Heq.
Qed.

(** Line ends as [_read] gives them. *)
Example scenario_line_ends :
  Py.universal_newlines
    (String "a" (String "013" (String "010" (String "b" (String "013" "c")))))
  = String "a" (String "010" (String "b" (String "010" "c"))).
Proof. reflexivity. Qed.

(** A text that the codec cannot encode leaves the file empty, and a text
    that the parser rejects leaves it as it was; both end the run. *)
Example scenario_failures :
  (exists fs' k',
     @execute no_codec default_command Sample.fs 0 = Raised fs' k'
     /\ texts fs' !! 0 = Some "")
  /\ @execute no_parser default_command Sample.fs 0 = Raised Sample.fs 0.
Proof. split; [eexists _, _; split; reflexivity|reflexivity]. Qed.

End MoreRuns.
